(** * The Sudoku puzzle module ([puzzle.c]): a shallow embedding

    The C module keeps two file-scope tables, [puzzle] and [fixed], both
    declared [[10][10]] and indexed from 1 to 9.  The embedding passes them
    around as an explicit [state] record.  Every function of [puzzle.c] that
    the properties below talk about is transcribed statement by statement:
    loops are bounded iterations with early return, array accesses are
    bounds-checked against the declared dimensions, and the ways in which a
    C execution can end (a [return], reaching the closing brace without a
    [return], a call of [exit], an access the language does not define) are
    kept apart. *)

From Stdlib Require Import ZArith Lia List Bool Ascii String.
From stdpp Require Import base option list strings pretty.

Local Open Scope Z_scope.

(** ** How an execution ends *)

(** The result of running a piece of C code. *)
Inductive outcome (A : Type) : Type :=
| Returns (a : A)        (* normal completion with a result *)
| Exits (status : Z)     (* the process was ended by [exit(status)] *)
| Undefined.             (* the C language gives the execution no meaning *)

Arguments Returns {A} a.
Arguments Exits {A} status.
Arguments Undefined {A}.

#[global] Instance outcome_ret : MRet outcome := fun A a => Returns a.

#[global] Instance outcome_bind : MBind outcome := fun A B k m =>
  match m with
  | Returns a => k a
  | Exits st => Exits st
  | Undefined => Undefined
  end.

#[global] Instance outcome_eq_dec {A} `{EqDecision A} : EqDecision (outcome A).
Proof. solve_decision. Defined.

(** How control leaves a statement (or a whole function body): either a
    [return e] was executed, or control ran through to what follows; for
    a function body, "what follows" is the closing brace. *)
Inductive flow (A : Type) : Type :=
| FallThrough
| Return (a : A).

Arguments FallThrough {A}.
Arguments Return {A} a.

(** [s1 ;; s2]: statement sequencing; a [return] in [s1] skips [s2]. *)
Definition seq_flow {A} (s1 s2 : outcome (flow A)) : outcome (flow A) :=
  f ← s1;
  match f with
  | Return a => Returns (Return a)
  | FallThrough => s2
  end.

Notation "s1 ;; s2" := (seq_flow s1 s2) (at level 100, right associativity).

(** The empty statement / an [if] without [else] whose test failed. *)
Definition skip {A} : outcome (flow A) := Returns FallThrough.

(** A call whose value the caller uses.  If the callee reached its closing
    brace without a [return], using the value is undefined (C99 6.9.1p12). *)
Definition value_of {A} (call : outcome (flow A)) : outcome A :=
  f ← call;
  match f with
  | Return a => Returns a
  | FallThrough => Undefined
  end.

(** A call used as an expression statement: the value, if any, is dropped
    and control continues with the next statement. *)
Definition discard {A B} (call : outcome (flow B)) : outcome (flow A) :=
  call ≫= fun _ => Returns FallThrough.

(** C's short-circuit [a || b] on calls. *)
Definition orelse (a b : outcome bool) : outcome bool :=
  a ≫= fun x : bool => if x then Returns true else b.

(** [for (i = lo; i < hi; i++) body], where the body may [return]. *)
Fixpoint for_from {A} (n : nat) (i : Z) (body : Z -> outcome (flow A))
  : outcome (flow A) :=
  match n with
  | O => Returns FallThrough
  | S n' => (body i ;; for_from n' (i + 1) body)
  end.

Definition for_lt {A} (lo hi : Z) (body : Z -> outcome (flow A)) :=
  for_from (Z.to_nat (hi - lo)) lo body.

(** [for (i = lo; i <= hi; i++) body]. *)
Definition for_le {A} (lo hi : Z) (body : Z -> outcome (flow A)) :=
  for_lt lo (hi + 1) body.

(** [for (i = lo; i < hi; i++) body] for a body that updates a store [St]
    and never returns.  The value of the counter after the loop is part
    of the result, because [init_puzzle] reads it. *)
Fixpoint loop_from {St} (n : nat) (i : Z) (body : Z -> St -> outcome St)
  (s : St) : outcome (Z * St) :=
  match n with
  | O => Returns (i, s)
  | S n' => s' ← body i s; loop_from n' (i + 1) body s'
  end.

Definition loop_lt {St} (lo hi : Z) (body : Z -> St -> outcome St) (s : St) :=
  loop_from (Z.to_nat (hi - lo)) lo body s.

(** ** The two tables *)

(** [short]: stores into [puzzle] convert an [int] to 16 bits. *)
Definition to_short (z : Z) : Z := (z + 32768) mod 65536 - 32768.

(** Modelled from the spec: [bool.h] is not among the sources; it supplies
    the type [bool] and the constants [TRUE] and [FALSE].  The spec calls the
    flag "a boolean", so the embedding uses Rocq's [bool]. *)
Definition TRUE : bool := true.
Definition FALSE : bool := false.

(** Modelled from the spec: [puzzle.h] is not among the sources; it declares
    [op_result].  The constants are the ones [puzzle.c] returns and
    [print_error] in [main.c] switches on. *)
Inductive op_result : Set :=
| OP_OK | OP_BADARGS | OP_OCCUPIED | OP_ILLEGAL | OP_EMPTY | OP_FIXED.

#[global] Instance op_result_eq_dec : EqDecision op_result.
Proof. solve_decision. Defined.

(** [static short puzzle[10][10]; static bool fixed[10][10];] in row-major
    order, as C lays them out: element [[i][j]] is at offset [10 * i + j]. *)
Record state : Type := mkState {
  puzzle : list Z;
  fixed : list bool
}.

#[global] Instance state_eq_dec : EqDecision state.
Proof. solve_decision. Defined.

(** A [state] has the declared dimensions. *)
Definition wf (s : state) : Prop :=
  length (puzzle s) = 100%nat /\ length (fixed s) = 100%nat.

Definition in_bounds (i : Z) : bool := (0 <=? i) && (i <? 10).

Definition offset (i j : Z) : option nat :=
  if in_bounds i && in_bounds j then Some (Z.to_nat (10 * i + j)) else None.

(** [arr[i][j]] as an rvalue; an index outside the declared dimensions is
    undefined behaviour. *)
Definition load {A} (arr : list A) (i j : Z) : outcome A :=
  match offset i j with
  | Some k => match arr !! k with Some v => Returns v | None => Undefined end
  | None => Undefined
  end.

(** [arr[i][j] = v]. *)
Definition store {A} (arr : list A) (i j : Z) (v : A) : outcome (list A) :=
  match offset i j with
  | Some k => if decide (k < length arr)%nat then Returns (<[k := v]> arr)
              else Undefined
  | None => Undefined
  end.

Definition set_puzzle (s : state) (i j : Z) (v : Z) : outcome state :=
  p ← store (puzzle s) i j (to_short v); Returns (mkState p (fixed s)).

Definition set_fixed (s : state) (i j : Z) (v : bool) : outcome state :=
  f ← store (fixed s) i j v; Returns (mkState (puzzle s) f).

(** The tables as the C runtime sets them up before [main]: objects of
    static storage duration are zero-initialised. *)
Definition zero_state : state :=
  mkState (replicate 100 0) (replicate 100 FALSE).

(** ** The functions of [puzzle.c] *)

(** [in_range]: both branches return. *)
Definition in_range (value : Z) : bool :=
  if (1 <=? value) && (value <=? 9) then TRUE else FALSE.

(** [row_contains]: the loop body returns in both branches of its [if]. *)
Definition row_contains (s : state) (row digit : Z) : outcome (flow bool) :=
  for_lt 1 10 (fun i =>
    x ← load (puzzle s) row i;
    if x =? digit then Returns (Return TRUE) else Returns (Return FALSE)).

(** [col_contains]: the same shape, down a column. *)
Definition col_contains (s : state) (col digit : Z) : outcome (flow bool) :=
  for_lt 1 10 (fun i =>
    x ← load (puzzle s) i col;
    if x =? digit then Returns (Return TRUE) else Returns (Return FALSE)).

(** The doubly nested loop that [region_search] writes out once per region:
    [for (i = i0; i <= i1; i++) for (j = j0; j <= j1; j++)
       if (puzzle[i][j] == digit) return TRUE;] *)
Definition search_block (s : state) (i0 i1 j0 j1 digit : Z)
  : outcome (flow bool) :=
  for_le i0 i1 (fun i =>
    for_le j0 j1 (fun j =>
      x ← load (puzzle s) i j;
      if x =? digit then Returns (Return TRUE) else skip)).

(** [region_search]: nine [if (region == k)] statements in sequence; there
    is no [return] after the last one. *)
Definition region_search (s : state) (region digit : Z)
  : outcome (flow bool) :=
  ((if region =? 1 then search_block s 1 3 1 3 digit else skip) ;;
   (if region =? 2 then search_block s 1 3 4 6 digit else skip) ;;
   (if region =? 3 then search_block s 1 3 7 9 digit else skip) ;;
   (if region =? 4 then search_block s 4 6 1 3 digit else skip) ;;
   (if region =? 5 then search_block s 4 6 4 6 digit else skip) ;;
   (if region =? 6 then search_block s 4 6 7 9 digit else skip) ;;
   (if region =? 7 then search_block s 7 9 1 3 digit else skip) ;;
   (if region =? 8 then search_block s 7 9 4 6 digit else skip) ;;
   (if region =? 9 then search_block s 7 9 7 9 digit else skip)).

(** [region_contains]: an [if]/[else if] chain.  Each of the nine region
    branches is the expression statement [region_search(k, digit);], only
    the final [else] holds a [return].  The test for region 9 reads
    [col >= 7 && col >= 9]. *)
Definition region_contains (s : state) (row col digit : Z)
  : outcome (flow bool) :=
  if (1 <=? row) && (row <=? 3) && ((1 <=? col) && (col <=? 3))
  then discard (region_search s 1 digit)
  else if ((1 <=? row) && (row <=? 3)) && ((4 <=? col) && (col <=? 6))
  then discard (region_search s 2 digit)
  else if ((1 <=? row) && (row <=? 3)) && ((7 <=? col) && (col <=? 9))
  then discard (region_search s 3 digit)
  else if ((4 <=? row) && (row <=? 6)) && ((1 <=? col) && (col <=? 3))
  then discard (region_search s 4 digit)
  else if ((4 <=? row) && (row <=? 6)) && ((4 <=? col) && (col <=? 6))
  then discard (region_search s 5 digit)
  else if ((4 <=? row) && (row <=? 6)) && ((7 <=? col) && (col <=? 9))
  then discard (region_search s 6 digit)
  else if ((7 <=? row) && (row <=? 9)) && ((1 <=? col) && (col <=? 3))
  then discard (region_search s 7 digit)
  else if ((7 <=? row) && (row <=? 9)) && ((4 <=? col) && (col <=? 6))
  then discard (region_search s 8 digit)
  else if ((7 <=? row) && (row <=? 9)) && ((7 <=? col) && (9 <=? col))
  then discard (region_search s 9 digit)
  else Returns (Return FALSE).

(** [add_digit]: every branch returns a status; only the last one writes. *)
Definition add_digit (s : state) (row col digit : Z)
  : outcome (op_result * state) :=
  if negb (in_range row) || negb (in_range col) || negb (in_range digit)
  then Returns (OP_BADARGS, s)
  else
    x ← load (puzzle s) row col;
    if negb (x =? 0) then Returns (OP_OCCUPIED, s)
    else
      hit ← orelse (value_of (row_contains s row digit))
                   (value_of (col_contains s col digit));
      if hit : bool then Returns (OP_ILLEGAL, s)
      else
        hit' ← value_of (region_contains s row col digit);
        if hit' : bool then Returns (OP_ILLEGAL, s)
        else
          s' ← set_puzzle s row col digit;
          Returns (OP_OK, s').

(** What the caller of [region_contains] finds where the callee reached its
    closing brace.  ISO C gives the call no value there; compiled code hands
    the test [if (region_contains(row, col, digit))] whatever the return
    register holds at that moment.  A [found] says how the test reads it at
    each call: [Some b], the value reads as [b]; [None], no value is
    assumed, which is the reading [value_of] takes.  The statements about
    [add_digit_seeing] hold for every [found]. *)
Definition found : Type := state -> Z -> Z -> Z -> option bool.

Definition strict : found := fun _ _ _ _ => None.

(** The value found reads as false at every call, or as true at every
    call. *)
Definition reads_false : found := fun _ _ _ _ => Some FALSE.

Definition reads_true : found := fun _ _ _ _ => Some TRUE.

(** A call whose value the caller uses, with [junk] for what the caller
    finds when no [return] was executed. *)
Definition value_or {A} (junk : option A) (call : outcome (flow A))
  : outcome A :=
  f ← call;
  match f with
  | Return a => Returns a
  | FallThrough =>
      match junk with
      | Some a => Returns a
      | None => Undefined
      end
  end.

(** [add_digit] once more, statement by statement, for any value the test of
    [region_contains] may find; [add_digit] is [add_digit_seeing strict]
    (see [add_digit_strict]).  The calls of [row_contains] and
    [col_contains] always end in a [return]. *)
Definition add_digit_seeing (junk : found) (s : state) (row col digit : Z)
  : outcome (op_result * state) :=
  if negb (in_range row) || negb (in_range col) || negb (in_range digit)
  then Returns (OP_BADARGS, s)
  else
    x ← load (puzzle s) row col;
    if negb (x =? 0) then Returns (OP_OCCUPIED, s)
    else
      hit ← orelse (value_of (row_contains s row digit))
                   (value_of (col_contains s col digit));
      if hit : bool then Returns (OP_ILLEGAL, s)
      else
        hit' ← value_or (junk s row col digit)
                        (region_contains s row col digit);
        if hit' : bool then Returns (OP_ILLEGAL, s)
        else
          s' ← set_puzzle s row col digit;
          Returns (OP_OK, s').

(** [erase_digit]. *)
Definition erase_digit (s : state) (row col : Z)
  : outcome (op_result * state) :=
  if negb (in_range row) || negb (in_range col)
  then Returns (OP_BADARGS, s)
  else
    x ← load (puzzle s) row col;
    if x =? 0 then Returns (OP_EMPTY, s)
    else
      f ← load (fixed s) row col;
      if bool_decide (f = TRUE) then Returns (OP_FIXED, s)
      else
        s' ← set_puzzle s row col 0;
        Returns (OP_OK, s').

(** The loop nest of [init_puzzle].  The loops have no braces, so they
    govern the single statement [puzzle[i][j] = 0;].  The result carries the
    values of both counters on loop exit; [j] is declared without
    initialiser, hence the [option]. *)
Definition init_puzzle_loops (s : state) : outcome (Z * (option Z * state)) :=
  loop_lt 1 10 (fun i '(_, s) =>
      '(j, s') ← loop_lt 1 10 (fun j s => set_puzzle s i j 0) s;
      Returns (Some j, s'))
    (None, s).

(** [init_puzzle].  The statement [fixed[i][j] = FALSE;] on the source line
    below the assignment to [puzzle] follows both loops: it runs once, with
    the values the two counters have by then. *)
Definition init_puzzle (s : state) : outcome state :=
  '(i, (j, s1)) ← init_puzzle_loops s;
  match j with
  | Some j => set_fixed s1 i j FALSE
  | None => Undefined
  end.

(** ** Reading the configuration file *)

(** The stream behind [FILE *puzzle_file]: the characters not yet read, each
    as the value a [char] holds.  ['\n'] is 10 and ['0'] is 48. *)
Definition stream := list Z.

(** [char line_in[5]] is declared without initialiser: an element that was
    never written is [None]. *)
Definition buffer := list (option Z).

Definition fresh_buffer : buffer := replicate 5 None.

(** The characters one [fgets] call consumes when it may store at most [n]
    of them: it stops after a newline, at end of file, or when [n] are read. *)
Fixpoint fgets_take (n : nat) (file : stream) : list Z * stream :=
  match n, file with
  | O, _ => ([], file)
  | S _, [] => ([], [])
  | S n', c :: rest =>
      if c =? 10 then ([c], rest)
      else let '(cs, rest') := fgets_take n' rest in (c :: cs, rest')
  end.

(** [fgets(line_in, size, file)] as ISO C describes it: [None] is the [NULL]
    returned at end of file when nothing was read (the array is then left as
    it was); otherwise the characters read and a terminating 0 overwrite the
    front of the array. *)
Definition fgets (line_in : buffer) (size : nat) (file : stream)
  : option (buffer * stream) :=
  match fgets_take (size - 1) file with
  | ([], _) => None
  | (cs, rest) =>
      let written := (Some <$> cs) ++ [Some 0] in
      Some (written ++ drop (length written) line_in, rest)
  end.

(** [line_in[k]] as an rvalue.  An element that was never written has an
    unspecified value, here [None]; an index outside the array is
    undefined. *)
Definition char_at (line_in : buffer) (k : nat) : outcome (option Z) :=
  match line_in !! k with
  | Some c => Returns c
  | None => Undefined
  end.

(** Arithmetic and tests on a value that may be unspecified. *)
Definition sub_u (a : option Z) (b : Z) : option Z := (fun x => x - b) <$> a.

Definition neq_u (a : option Z) (b : Z) : option bool :=
  (fun x => negb (x =? b)) <$> a.

Definition not_in_range_u (a : option Z) : option bool :=
  (fun x => negb (in_range x)) <$> a.

(** [a || b] for tests without side effects: true as soon as one operand
    is known to be true. *)
Definition or_u (a b : option bool) : option bool :=
  match a, b with
  | Some true, _ => Some true
  | _, Some true => Some true
  | Some false, Some false => Some false
  | _, _ => None
  end.

(** [if (c) t else e].  When the test is unspecified the execution takes
    one of the branches; what it does is defined when both do the same. *)
Definition if_u {A} `{EqDecision A} (c : option bool) (t e : outcome A)
  : outcome A :=
  match c with
  | Some true => t
  | Some false => e
  | None => if decide (t = e) then t else Undefined
  end.

(** The branches of the [if] chain of [configure] that follow the two
    format tests. *)
Definition configure_cell (s : state) (row col digit : Z) : outcome state :=
  x ← load (puzzle s) row col;
  if negb (x =? 0) then Exits 1
  else
    hit ← orelse (value_of (row_contains s row digit))
                 (value_of (col_contains s col digit));
    if hit : bool then Exits 1
    else
      hit' ← value_of (region_contains s row col digit);
      if hit' : bool then Exits 1
      else
        s1 ← set_puzzle s row col digit;
        set_fixed s1 row col TRUE.

(** The body of the [while] loop of [configure], after [fgets] has filled
    [line_in].  The [printf] calls and the counter [line_num], which only
    feeds them, are left out; each rejected line ends in [exit(1)].  The
    branches after the range test are reached with [row], [col] and [digit]
    known. *)
Definition configure_line (line_in : buffer) (s : state) : outcome state :=
  c0 ← char_at line_in 0;
  let row := sub_u c0 48 in
  c1 ← char_at line_in 1;
  let col := sub_u c1 48 in
  c2 ← char_at line_in 2;
  let digit := sub_u c2 48 in
  c3 ← char_at line_in 3;
  if_u (neq_u c3 10) (Exits 1)
    (if_u (or_u (or_u (not_in_range_u row) (not_in_range_u col))
                (not_in_range_u digit))
       (Exits 1)
       (match row, col, digit with
        | Some row, Some col, Some digit => configure_cell s row col digit
        | _, _, _ => Undefined
        end)).

(** [while (fgets(line_in, 5, puzzle_file) != NULL) { ... }].  Every
    successful [fgets] consumes at least one character, so [fuel] bounded
    below by the length of the file is never used up (see
    [configure_loop_fuel]); [None] marks exhausted fuel. *)
Fixpoint configure_loop (fuel : nat) (file : stream) (line_in : buffer)
  (s : state) : option (outcome state) :=
  match fgets line_in 5 file with
  | None => Some (Returns s)
  | Some (line_in', rest) =>
      match fuel with
      | O => None
      | S fuel' =>
          match configure_line line_in' s with
          | Returns s' => configure_loop fuel' rest line_in' s'
          | Exits st => Some (Exits st)
          | Undefined => Some Undefined
          end
      end
  end.

(** [configure]. *)
Definition configure (file : stream) (s : state) : option (outcome state) :=
  configure_loop (length file) file fresh_buffer s.

(** ** The command loop's view of the module *)

(** The two mutating commands [main] dispatches: ['a'] to [add_digit] and
    ['e'] to [erase_digit]. *)
Inductive command : Set :=
| Place (row col digit : Z)
| Erase (row col : Z).

Definition exec (s : state) (c : command) : outcome (op_result * state) :=
  match c with
  | Place row col digit => add_digit s row col digit
  | Erase row col => erase_digit s row col
  end.

(** A session: the statuses in order, and the tables at the end. *)
Fixpoint run (s : state) (cs : list command)
  : outcome (list op_result * state) :=
  match cs with
  | [] => Returns ([], s)
  | c :: cs' =>
      '(r, s1) ← exec s c;
      '(rs, s2) ← run s1 cs';
      Returns (r :: rs, s2)
  end.

(** The cell a command is aimed at. *)
Definition target (c : command) : Z * Z :=
  match c with
  | Place row col _ => (row, col)
  | Erase row col => (row, col)
  end.

(** ** What the specification says about the board *)

(** The cells of the board proper. *)
Definition on_board (r c : Z) : Prop := 1 <= r <= 9 /\ 1 <= c <= 9.

(** A direct scan: does one of the cells [(r, c)] with [r] in [rows] and
    [c] in [cols] hold [digit]? *)
Definition holds (s : state) (rows cols : list Z) (digit : Z) : bool :=
  existsb (fun r =>
    existsb (fun c =>
      match load (puzzle s) r c with
      | Returns x => x =? digit
      | _ => false
      end) cols) rows.

Definition one_to_nine : list Z := [1; 2; 3; 4; 5; 6; 7; 8; 9].

(** The three rows (or columns) of the band that contains index [k]:
    the spec's [(k - 1) / 3] band arithmetic. *)
Definition band (k : Z) : list Z :=
  let b := 3 * ((k - 1) / 3) in [b + 1; b + 2; b + 3].

Definition row_holds (s : state) (row digit : Z) : bool :=
  holds s [row] one_to_nine digit.

Definition col_holds (s : state) (col digit : Z) : bool :=
  holds s one_to_nine [col] digit.

Definition block_holds (s : state) (row col digit : Z) : bool :=
  holds s (band row) (band col) digit.

(** "Each nonzero digit appears at most once" among cells that are
    [related]: same row, same column, or same 3x3 region. *)
Definition unique_among (related : Z -> Z -> Z -> Z -> Prop) (s : state) : Prop :=
  forall r1 c1 r2 c2 d,
    on_board r1 c1 -> on_board r2 c2 -> related r1 c1 r2 c2 ->
    d <> 0 ->
    load (puzzle s) r1 c1 = Returns d -> load (puzzle s) r2 c2 = Returns d ->
    r1 = r2 /\ c1 = c2.

Definition rows_unique : state -> Prop :=
  unique_among (fun r1 _ r2 _ => r1 = r2).

Definition cols_unique : state -> Prop :=
  unique_among (fun _ c1 _ c2 => c1 = c2).

Definition regions_unique : state -> Prop :=
  unique_among (fun r1 c1 r2 c2 =>
    (r1 - 1) / 3 = (r2 - 1) / 3 /\ (c1 - 1) / 3 = (c2 - 1) / 3).

(** Every fixed cell holds a digit: seeding writes the digit and the flag
    together, and nothing else sets the flag. *)
Definition fixed_filled (s : state) : Prop :=
  forall r c, on_board r c ->
    load (fixed s) r c = Returns TRUE -> load (puzzle s) r c <> Returns 0.

(** ** Auxiliary notions used in the statements *)

(** The process is not ended by [exit]. *)
Definition no_exit {A} (o : outcome A) : Prop := forall st, o <> Exits st.

(** A loop whose body never yields [FALSE] and stays defined either returns
    [TRUE] or runs to its end. *)
Definition quiet (o : outcome (flow bool)) : Prop :=
  o = Returns FallThrough \/ o = Returns (Return TRUE).

(** The only cells for which [region_contains] reaches its [return]. *)
Definition region_contains_returns (row col : Z) : bool :=
  (7 <=? row) && (row <=? 9) && (7 <=? col) && (col <=? 8).

(** The statuses with which a call is turned away from a fixed cell. *)
Definition rejected (r : op_result) : Prop :=
  r = OP_FIXED \/ r = OP_OCCUPIED \/ r = OP_BADARGS.

(** A line the checks of [configure] are written to turn down: an index or
    digit outside 1..9, an occupied target cell, or a digit that the row or
    column query reports. *)
Definition turned_down (s : state) (row col digit : Z) : Prop :=
  ~ (1 <= row <= 9 /\ 1 <= col <= 9 /\ 1 <= digit <= 9) \/
  (exists x, load (puzzle s) row col = Returns x /\ x <> 0) \/
  (load (puzzle s) row col = Returns 0 /\
   (value_of (row_contains s row digit) = Returns TRUE \/
    (value_of (row_contains s row digit) = Returns FALSE /\
     value_of (col_contains s col digit) = Returns TRUE))).

(** ** Boards used as concrete inputs *)

(** A 5 placed at row 7, column 7 of the empty board. *)
Definition board_77 : state :=
  mkState (<[77%nat := 5]> (replicate 100 0)) (replicate 100 FALSE).

(** A 5 placed at row 7, column 8 of the empty board. *)
Definition board_78 : state :=
  mkState (<[78%nat := 5]> (replicate 100 0)) (replicate 100 FALSE).

(** Both of the above. *)
Definition board_77_78 : state :=
  mkState (<[78%nat := 5]> (<[77%nat := 5]> (replicate 100 0)))
          (replicate 100 FALSE).

(** A 5 at row 7, column 7 and another at row 8, column 7. *)
Definition board_77_87 : state :=
  mkState (<[87%nat := 5]> (<[77%nat := 5]> (replicate 100 0)))
          (replicate 100 FALSE).

(** Row 7, column 7 seeded with a 5 by [configure]. *)
Definition seeded_77 : state :=
  mkState (<[77%nat := 5]> (replicate 100 0))
          (<[77%nat := TRUE]> (replicate 100 FALSE)).

(** The file holding the single line ["775\n"]. *)
Definition file_775 : stream := [55; 55; 53; 10].

(** ** Printing the board *)

(** What a call writes to standard output is its result. *)

(** The line terminator ['\n']. *)
Definition newline : string := String (Ascii.ascii_of_nat 10) EmptyString.

(** [printf("%d", v)]: the decimal numeral of an [int]. *)
Definition print_int (v : Z) : string := pretty v.

(** [print_dashes]. *)
Definition print_dashes : string :=
  "-------------------------" +:+ newline.

(** The body of the loop of [print_row], appending to what has been
    written so far: the cell is read once for the test against 0 and once
    more as the argument of [printf]. *)
Definition print_cell (s : state) (row i : Z) (out : string)
  : outcome string :=
  let out := out +:+ " " in
  x ← load (puzzle s) row i;
  out ← (if x =? 0 then Returns (out +:+ " ")
         else x' ← load (puzzle s) row i; Returns (out +:+ print_int x'));
  Returns (if Z.rem i 3 =? 0 then out +:+ " |" else out).

(** [print_row]. *)
Definition print_row (s : state) (row : Z) : outcome string :=
  '(_, out) ← loop_lt 1 10 (print_cell s row) "|";
  Returns (out +:+ newline).

(** [print_puzzle]. *)
Definition print_puzzle (s : state) : outcome string :=
  '(_, out) ← loop_lt 1 10 (fun i out =>
      r ← print_row s i;
      let out := out +:+ r in
      Returns (if Z.rem i 3 =? 0 then out +:+ print_dashes else out))
    print_dashes;
  Returns out.

(** ** Reading a command line ([main.c]) *)

(** [buf[i] = v] on a [char] array of [length buf] elements. *)
Definition store_char (buf : buffer) (i : Z) (v : Z) : outcome buffer :=
  if (0 <=? i) && (i <? Z.of_nat (length buf))
  then Returns (<[Z.to_nat i := Some v]> buf)
  else Undefined.

(** What [read_line] leaves behind: the array, the unread input and the
    characters echoed to standard output. *)
Record line_io : Type := mkLineIO {
  line_buf : buffer;
  line_rest : stream;
  line_echo : list Z
}.

(** The [for] loop of [read_line]:
    [for (ch = getchar(); ch != EOF && ch != '\n'; ch = getchar())].
    The input holds the values [getchar] returns, its end is [EOF].  The
    result carries [ch] on loop exit ([None] for [EOF]) and the counter [i].

    [echo_input] comes from [arguments.h], which is not among the sources;
    what it returns is the parameter [echo_input].  The conversion of the
    [int] [ch] to [char] in [buf[i++] = ch] is implementation-defined and is
    the parameter [to_char]. *)
Fixpoint read_line_loop (echo_input : bool) (to_char : Z -> Z) (max : Z)
  (input : stream) (i : Z) (buf : buffer) (echo : list Z)
  : outcome (option Z * Z * line_io) :=
  match input with
  | [] => Returns (None, i, mkLineIO buf [] echo)
  | ch :: rest =>
      if ch =? 10 then Returns (Some ch, i, mkLineIO buf rest echo)
      else
        let echo := if echo_input then echo ++ [ch] else echo in
        if i <? max
        then buf' ← store_char buf i (to_char ch);
             read_line_loop echo_input to_char max rest (i + 1) buf' echo
        else read_line_loop echo_input to_char max rest i buf echo
  end.

(** [read_line]: declared to return [bool], it has no [return]. *)
Definition read_line (echo_input : bool) (to_char : Z -> Z)
  (input : stream) (buf : buffer) (max : Z) : outcome (flow bool * line_io) :=
  '(ch, i, io) ← read_line_loop echo_input to_char max input 0 buf [];
  let echo :=
    if echo_input && bool_decide (ch = Some 10)
    then line_echo io ++ [10] else line_echo io in
  buf' ← store_char (line_buf io) i 0;
  Returns (FallThrough, mkLineIO buf' (line_rest io) echo).

(** ** Further notions used in the statements *)

(** Every element of [puzzle] is 0 or a digit. *)
Definition digits_ok (s : state) : Prop :=
  Forall (fun x => 0 <= x <= 9) (puzzle s).

(** How the board after seeding relates to the board before: digits and
    flags that were there are still there, and a cell whose content has
    changed is fixed. *)
Definition grown (s s' : state) : Prop :=
  (forall r c x, load (puzzle s) r c = Returns x -> x <> 0 ->
     load (puzzle s') r c = Returns x) /\
  (forall r c, load (fixed s) r c = Returns TRUE ->
     load (fixed s') r c = Returns TRUE) /\
  (forall r c, load (puzzle s') r c <> load (puzzle s) r c ->
     load (fixed s') r c = Returns TRUE).

(** The characters of the input before the first newline. *)
Fixpoint first_line (input : stream) : list Z :=
  match input with
  | [] => []
  | ch :: rest => if ch =? 10 then [] else ch :: first_line rest
  end.

(** The region number, 1 to 9, of a cell of the board. *)
Definition region_of (row col : Z) : Z :=
  3 * ((row - 1) / 3) + (col - 1) / 3 + 1.

(** The character [print_row] shows for a cell. *)
Definition cell_char (x : Z) : Ascii.ascii :=
  if x =? 0 then " "%char else Ascii.ascii_of_nat (Z.to_nat (48 + x)).

(** The character [print_row] shows for cell [i] of a row. *)
Definition shown (s : state) (row i : Z) : ascii :=
  match load (puzzle s) row i with
  | Returns x => cell_char x
  | _ => " "%char
  end.

(** A printed row: a bar, then the nine cells in groups of three, each cell
    after a blank and each group closed by a blank and a bar. *)
Definition row_text (c : Z -> ascii) : string :=
  "|" +:+
  " " +:+ String (c 1) (" " +:+ String (c 2) (" " +:+ String (c 3) " |")) +:+
  " " +:+ String (c 4) (" " +:+ String (c 5) (" " +:+ String (c 6) " |")) +:+
  " " +:+ String (c 7) (" " +:+ String (c 8) (" " +:+ String (c 9) " |")) +:+
  newline.

(** * Properties *)

(** ** Indexing and the two tables *)

Ltac unfold_bind := unfold mbind, outcome_bind, mret, outcome_ret in *.

Lemma in_range_spec (v : Z) : in_range v = true <-> 1 <= v <= 9.
Proof. unfold in_range, TRUE, FALSE. destruct (_ && _) eqn:E; lia. Qed.

Lemma in_range_in_bounds (v : Z) : in_range v = true -> in_bounds v = true.
Proof. rewrite in_range_spec. unfold in_bounds. lia. Qed.

Lemma not_all_in_range (row col digit : Z) :
  ~ (1 <= row <= 9 /\ 1 <= col <= 9 /\ 1 <= digit <= 9) ->
  in_range row && in_range col && in_range digit = false.
Proof.
  intros H.
  destruct (in_range row) eqn:Hr, (in_range col) eqn:Hc,
           (in_range digit) eqn:Hd; try reflexivity.
  apply in_range_spec in Hr, Hc, Hd. tauto.
Qed.

Lemma to_short_small (v : Z) : -32768 <= v < 32768 -> to_short v = v.
Proof. intros H. unfold to_short. rewrite Z.mod_small; lia. Qed.

Lemma offset_Some (i j : Z) (k : nat) :
  offset i j = Some k <->
  (0 <= i < 10 /\ 0 <= j < 10) /\ k = Z.to_nat (10 * i + j).
Proof.
  unfold offset, in_bounds.
  destruct (_ && _) eqn:E; split; intros H; try (inversion H; subst; lia).
  destruct H as [_ ->]. reflexivity.
Qed.

Lemma offset_inj (i j i' j' : Z) (k : nat) :
  offset i j = Some k -> offset i' j' = Some k -> i = i' /\ j = j'.
Proof. rewrite !offset_Some. lia. Qed.

Lemma offset_lt (i j : Z) (k : nat) : offset i j = Some k -> (k < 100)%nat.
Proof. rewrite offset_Some. lia. Qed.

Lemma offset_in_bounds (i j : Z) :
  in_bounds i = true -> in_bounds j = true -> exists k, offset i j = Some k.
Proof. unfold offset. intros -> ->. eauto. Qed.

Section Tables.
Context {A : Type}.
Implicit Types (arr : list A) (v : A).

Lemma load_defined arr (i j : Z) :
  length arr = 100%nat -> in_bounds i = true -> in_bounds j = true ->
  exists v, load arr i j = Returns v.
Proof.
  intros Hlen Hi Hj. destruct (offset_in_bounds i j Hi Hj) as [k Hk].
  unfold load. rewrite Hk.
  destruct (lookup_lt_is_Some_2 arr k) as [v ->]; [|eauto].
  apply offset_lt in Hk. lia.
Qed.

Lemma store_defined arr (i j : Z) v :
  length arr = 100%nat -> in_bounds i = true -> in_bounds j = true ->
  exists k, offset i j = Some k /\ store arr i j v = Returns (<[k := v]> arr).
Proof.
  intros Hlen Hi Hj. destruct (offset_in_bounds i j Hi Hj) as [k Hk].
  exists k. split; [done|]. unfold store. rewrite Hk.
  apply offset_lt in Hk. case_decide; [done | lia].
Qed.

Lemma store_length arr arr' (i j : Z) v :
  store arr i j v = Returns arr' -> length arr' = length arr.
Proof.
  unfold store. destruct (offset i j); [|done].
  case_decide; [|done]. intros [= <-]. apply length_insert.
Qed.

Lemma load_store_same arr arr' (i j : Z) v :
  store arr i j v = Returns arr' -> load arr' i j = Returns v.
Proof.
  unfold store, load. destruct (offset i j) as [k|]; [|done].
  case_decide; [|done]. intros [= <-].
  by rewrite list_lookup_insert_eq.
Qed.

Lemma load_store_other arr arr' (i j i' j' : Z) v :
  store arr i j v = Returns arr' -> ~ (i' = i /\ j' = j) ->
  load arr' i' j' = load arr i' j'.
Proof.
  unfold store, load. destruct (offset i j) as [k|] eqn:Hk; [|done].
  case_decide; [|done]. intros [= <-] Hne.
  destruct (offset i' j') as [k'|] eqn:Hk'; [|done].
  rewrite list_lookup_insert_ne; [done|].
  intros ->. destruct (offset_inj _ _ _ _ _ Hk' Hk). tauto.
Qed.

(** Writing back what was there gives the table back. *)
Lemma store_store_back arr arr1 arr2 (i j : Z) v w :
  load arr i j = Returns v ->
  store arr i j w = Returns arr1 -> store arr1 i j v = Returns arr2 ->
  arr2 = arr.
Proof.
  unfold store, load. destruct (offset i j) as [k|]; [|done].
  destruct (arr !! k) as [x|] eqn:Hx; [|done]. intros [= ->].
  case_decide; [|done]. intros [= <-].
  case_decide; [|done]. intros [= <-].
  rewrite list_insert_insert_eq. by apply list_insert_id.
Qed.
End Tables.

Lemma zero_state_wf : wf zero_state.
Proof. split; reflexivity. Qed.

Lemma set_puzzle_wf s s' (i j v : Z) :
  wf s -> set_puzzle s i j v = Returns s' -> wf s'.
Proof.
  intros [Hp Hf]. unfold set_puzzle. unfold_bind.
  destruct (store _ _ _ _) as [p| |] eqn:E; [|done..]. intros [= <-].
  split; simpl; [|done]. by rewrite (store_length _ _ _ _ _ E).
Qed.

Lemma set_puzzle_inv s s' (i j v : Z) :
  set_puzzle s i j v = Returns s' ->
  store (puzzle s) i j (to_short v) = Returns (puzzle s') /\ fixed s' = fixed s.
Proof.
  unfold set_puzzle. unfold_bind.
  destruct (store _ _ _ _) as [p| |]; [|done..]. by intros [= <-].
Qed.

Lemma set_puzzle_defined s (i j v : Z) :
  wf s -> in_bounds i = true -> in_bounds j = true ->
  exists s', set_puzzle s i j v = Returns s'.
Proof.
  intros [Hp _] Hi Hj. unfold set_puzzle. unfold_bind.
  destruct (store_defined (puzzle s) i j (to_short v) Hp Hi Hj) as (k & _ & ->).
  eauto.
Qed.

(** ** The three queries *)

(** What [row_contains] computes: the comparison at column 1, nothing else. *)
Lemma row_contains_unfold s (row digit : Z) :
  row_contains s row digit =
  x ← load (puzzle s) row 1; Returns (Return (x =? digit)).
Proof.
  unfold row_contains, for_lt. simpl. unfold seq_flow. unfold_bind.
  destruct (load _ _ _); [|done..]. by destruct (_ =? _).
Qed.

Lemma col_contains_unfold s (col digit : Z) :
  col_contains s col digit =
  x ← load (puzzle s) 1 col; Returns (Return (x =? digit)).
Proof.
  unfold col_contains, for_lt. simpl. unfold seq_flow. unfold_bind.
  destruct (load _ _ _); [|done..]. by destruct (_ =? _).
Qed.

Lemma seq_flow_quiet (a b : outcome (flow bool)) :
  quiet a -> quiet b -> quiet (a ;; b).
Proof. intros [-> | ->] Hb; [exact Hb | by right]. Qed.

Lemma for_from_quiet (n : nat) (i : Z) (body : Z -> outcome (flow bool)) :
  (forall k, i <= k < i + Z.of_nat n -> quiet (body k)) ->
  quiet (for_from n i body).
Proof.
  revert i. induction n as [|n IH]; intros i Hbody; simpl.
  - by left.
  - apply seq_flow_quiet; [apply Hbody; lia|].
    apply IH. intros k Hk. apply Hbody. lia.
Qed.

Lemma search_block_quiet s (i0 i1 j0 j1 digit : Z) :
  wf s -> 0 <= i0 -> i1 < 10 -> 0 <= j0 -> j1 < 10 ->
  quiet (search_block s i0 i1 j0 j1 digit).
Proof.
  intros [Hp _] ????. unfold search_block, for_le, for_lt.
  apply for_from_quiet. intros i Hi. apply for_from_quiet. intros j Hj.
  destruct (load_defined (puzzle s) i j Hp) as [x ->];
    [unfold in_bounds; lia..|].
  unfold_bind. destruct (_ =? _); [by right | by left].
Qed.

Lemma region_search_quiet s (region digit : Z) :
  wf s -> quiet (region_search s region digit).
Proof.
  intros Hwf. unfold region_search.
  repeat (apply seq_flow_quiet;
          [destruct (_ =? _); [apply search_block_quiet; (done || lia) | by left]|]).
  destruct (_ =? _); [apply search_block_quiet; (done || lia) | by left].
Qed.

Lemma discard_quiet {A} (call : outcome (flow bool)) :
  quiet call -> discard (A := A) call = Returns FallThrough.
Proof. by intros [-> | ->]. Qed.

(** On the board, [region_contains] either executes [return FALSE] (rows 7
    to 9 in columns 7 and 8) or runs off its closing brace. *)
Lemma region_contains_cases s (row col digit : Z) :
  wf s -> on_board row col ->
  region_contains s row col digit =
  if region_contains_returns row col then Returns (Return FALSE)
  else Returns FallThrough.
Proof.
  intros Hwf [Hr Hc]. unfold region_contains, region_contains_returns.
  repeat match goal with
  | |- context [discard (region_search s ?k digit)] =>
      rewrite (discard_quiet (A := bool) _ (region_search_quiet s k digit Hwf))
  end.
  repeat match goal with
  | |- context [?a <=? ?b] => destruct (Z.leb_spec a b); simpl; try lia
  end; reflexivity.
Qed.

(** On the board, [region_contains] never reports a digit as present. *)
Lemma region_contains_never_true s (row col digit : Z) :
  wf s -> on_board row col ->
  value_of (region_contains s row col digit) <> Returns TRUE.
Proof.
  intros Hwf Hb. rewrite region_contains_cases by done.
  by destruct (region_contains_returns row col).
Qed.

(** ** [add_digit] and [erase_digit] *)

Lemma add_digit_bad_args s (row col digit : Z) :
  in_range row && in_range col && in_range digit = false ->
  add_digit s row col digit = Returns (OP_BADARGS, s).
Proof.
  intros H. unfold add_digit.
  by destruct (in_range row), (in_range col), (in_range digit).
Qed.

(** What a successful [add_digit] went through. *)
Lemma add_digit_ok_inv s s' (row col digit : Z) :
  add_digit s row col digit = Returns (OP_OK, s') ->
  (in_range row = true /\ in_range col = true /\ in_range digit = true) /\
  load (puzzle s) row col = Returns 0 /\
  set_puzzle s row col digit = Returns s'.
Proof.
  unfold add_digit.
  destruct (in_range row), (in_range col), (in_range digit); simpl; try done.
  unfold_bind.
  destruct (load (puzzle s) row col) as [x| |] eqn:Hx; [|done..].
  destruct (Z.eqb_spec x 0) as [->|]; simpl; [|done].
  destruct (orelse _ _) as [[|]| |]; [done| |done..].
  destruct (value_of (region_contains _ _ _ _)) as [[|]| |]; [done| |done..].
  destruct (set_puzzle _ _ _ _) as [s1| |]; [|done..].
  by intros [= <-].
Qed.

Lemma add_digit_occupied s (row col digit x : Z) :
  in_range row = true -> in_range col = true -> in_range digit = true ->
  load (puzzle s) row col = Returns x -> x <> 0 ->
  add_digit s row col digit = Returns (OP_OCCUPIED, s).
Proof.
  intros Hr Hc Hd Hx Hne. unfold add_digit. rewrite Hr, Hc, Hd. simpl.
  unfold_bind. rewrite Hx. by destruct (Z.eqb_spec x 0).
Qed.

Lemma erase_digit_fixed s (row col x : Z) :
  in_range row = true -> in_range col = true ->
  load (puzzle s) row col = Returns x -> x <> 0 ->
  load (fixed s) row col = Returns TRUE ->
  erase_digit s row col = Returns (OP_FIXED, s).
Proof.
  intros Hr Hc Hx Hne Hf. unfold erase_digit. rewrite Hr, Hc. simpl.
  unfold_bind. rewrite Hx, Hf. by destruct (Z.eqb_spec x 0).
Qed.

Lemma erase_digit_ok s (row col x : Z) :
  in_range row = true -> in_range col = true ->
  load (puzzle s) row col = Returns x -> x <> 0 ->
  load (fixed s) row col = Returns FALSE ->
  erase_digit s row col = s' ← set_puzzle s row col 0; Returns (OP_OK, s').
Proof.
  intros Hr Hc Hx Hne Hf. unfold erase_digit. rewrite Hr, Hc. simpl.
  unfold_bind. rewrite Hx, Hf. by destruct (Z.eqb_spec x 0).
Qed.

(** *** No call of [exit] outside [configure] *)

Lemma no_exit_Returns {A} (a : A) : no_exit (Returns a).
Proof. by intros st. Qed.

Lemma no_exit_Undefined {A} : no_exit (@Undefined A).
Proof. by intros st. Qed.

Lemma no_exit_bind {A B} (m : outcome A) (k : A -> outcome B) :
  no_exit m -> (forall a, no_exit (k a)) -> no_exit (m ≫= k).
Proof.
  intros Hm Hk st. unfold_bind. destruct m as [a| st'|]; [apply Hk| |done].
  by destruct (Hm st').
Qed.

Lemma no_exit_load {A} (arr : list A) (i j : Z) : no_exit (load arr i j).
Proof. intros st. unfold load. by repeat case_match. Qed.

Lemma no_exit_store {A} (arr : list A) (i j : Z) (v : A) :
  no_exit (store arr i j v).
Proof. intros st. unfold store. by repeat case_match. Qed.

Lemma no_exit_seq_flow {A} (a b : outcome (flow A)) :
  no_exit a -> no_exit b -> no_exit (a ;; b).
Proof.
  intros Ha Hb. apply no_exit_bind; [done|].
  intros [|x]; [done | apply no_exit_Returns].
Qed.

Lemma no_exit_for_from {A} (n : nat) (i : Z) (body : Z -> outcome (flow A)) :
  (forall k, no_exit (body k)) -> no_exit (for_from n i body).
Proof.
  intros Hbody. revert i. induction n as [|n IH]; intros i; simpl.
  - apply no_exit_Returns.
  - by apply no_exit_seq_flow.
Qed.

Lemma no_exit_value_of {A} (call : outcome (flow A)) :
  no_exit call -> no_exit (value_of call).
Proof.
  intros H. apply no_exit_bind; [done|].
  intros [|a]; [apply no_exit_Undefined | apply no_exit_Returns].
Qed.

Lemma no_exit_discard {A B} (call : outcome (flow B)) :
  no_exit call -> no_exit (discard (A := A) call).
Proof. intros H. apply no_exit_bind; [done|]. intros _. apply no_exit_Returns. Qed.

Create HintDb no_exit.

#[local] Hint Resolve no_exit_Returns no_exit_Undefined no_exit_load
  no_exit_store no_exit_seq_flow no_exit_for_from no_exit_value_of
  no_exit_discard : no_exit.

Ltac no_exit_step :=
  lazymatch goal with
  | |- no_exit (mbind _ _) => apply no_exit_bind; [|intros ?]
  | |- no_exit (if ?b then _ else _) => destruct b
  | |- no_exit _ => solve [eauto with no_exit]
  end.

Lemma no_exit_row_contains s (row digit : Z) : no_exit (row_contains s row digit).
Proof.
  unfold row_contains, for_lt. apply no_exit_for_from. intros k.
  repeat no_exit_step.
Qed.

Lemma no_exit_col_contains s (col digit : Z) : no_exit (col_contains s col digit).
Proof.
  unfold col_contains, for_lt. apply no_exit_for_from. intros k.
  repeat no_exit_step.
Qed.

Lemma no_exit_search_block s (i0 i1 j0 j1 digit : Z) :
  no_exit (search_block s i0 i1 j0 j1 digit).
Proof.
  unfold search_block, for_le, for_lt, skip.
  apply no_exit_for_from. intros i. apply no_exit_for_from. intros j.
  repeat no_exit_step.
Qed.

Lemma no_exit_region_search s (region digit : Z) :
  no_exit (region_search s region digit).
Proof.
  unfold region_search, skip.
  repeat (apply no_exit_seq_flow;
          [destruct (_ =? _); [apply no_exit_search_block | apply no_exit_Returns]|]).
  destruct (_ =? _); [apply no_exit_search_block | apply no_exit_Returns].
Qed.

Lemma no_exit_region_contains s (row col digit : Z) :
  no_exit (region_contains s row col digit).
Proof.
  unfold region_contains.
  repeat match goal with
  | |- no_exit (if ?b then _ else _) =>
      destruct b; [apply no_exit_discard, no_exit_region_search|]
  end.
  apply no_exit_Returns.
Qed.

#[local] Hint Resolve no_exit_row_contains no_exit_col_contains
  no_exit_region_contains : no_exit.

Lemma no_exit_set_puzzle s (i j v : Z) : no_exit (set_puzzle s i j v).
Proof. unfold set_puzzle. repeat no_exit_step. Qed.

#[local] Hint Resolve no_exit_set_puzzle : no_exit.

Lemma no_exit_loop_from {St} (n : nat) (i : Z)
    (body : Z -> St -> outcome St) (s : St) :
  (forall k x, no_exit (body k x)) -> no_exit (loop_from n i body s).
Proof.
  intros Hbody. revert i s. induction n as [|n IH]; intros i s; simpl.
  - apply no_exit_Returns.
  - by apply no_exit_bind.
Qed.

Lemma init_puzzle_no_exit s : no_exit (init_puzzle s).
Proof.
  unfold init_puzzle, init_puzzle_loops, loop_lt.
  apply no_exit_bind.
  - apply no_exit_loop_from. intros i [j x]. apply no_exit_bind.
    + apply no_exit_loop_from. intros. apply no_exit_set_puzzle.
    + intros [j' x']. apply no_exit_Returns.
  - intros [i [[j|] x]]; [|apply no_exit_Undefined].
    unfold set_fixed. repeat no_exit_step.
Qed.

Lemma add_digit_no_exit s (row col digit : Z) :
  no_exit (add_digit s row col digit).
Proof. unfold add_digit, orelse. repeat no_exit_step. Qed.

Lemma erase_digit_no_exit s (row col : Z) : no_exit (erase_digit s row col).
Proof. unfold erase_digit. repeat no_exit_step. Qed.

Example board_77_reached :
  add_digit zero_state 7 7 5 = Returns (OP_OK, board_77).
Proof. reflexivity. Qed.

Example board_78_reached :
  add_digit zero_state 7 8 5 = Returns (OP_OK, board_78).
Proof. reflexivity. Qed.

Example seeded_77_reached :
  configure file_775 zero_state = Some (Returns seeded_77).
Proof. reflexivity. Qed.

Lemma zero_state_fixed_filled : fixed_filled zero_state.
Proof.
  intros r c _. unfold load, zero_state. cbn [fixed].
  destruct (offset r c) as [k|]; [|done].
  destruct (replicate 100 FALSE !! k) as [b|] eqn:E; [|done].
  apply lookup_replicate in E as [-> _]. unfold TRUE, FALSE. discriminate.
Qed.

(** ** Boards the program can reach *)

(** What a call changed, if anything. *)
Lemma add_digit_inv s s' (row col digit : Z) (r : op_result) :
  add_digit s row col digit = Returns (r, s') ->
  s' = s \/
  (1 <= digit <= 9 /\ set_puzzle s row col digit = Returns s').
Proof.
  unfold add_digit.
  destruct (in_range row), (in_range col), (in_range digit) eqn:Hd; simpl;
    try (intros [= _ <-]; by left).
  unfold_bind.
  destruct (load (puzzle s) row col) as [x| |]; [|done..].
  destruct (negb (x =? 0)); [intros [= _ <-]; by left|].
  destruct (orelse _ _) as [[|]| |]; [intros [= _ <-]; by left| |done..].
  destruct (value_of (region_contains _ _ _ _)) as [[|]| |];
    [intros [= _ <-]; by left| |done..].
  destruct (set_puzzle _ _ _ _) as [s1| |]; [|done..].
  intros [= _ <-]. right. by apply in_range_spec in Hd.
Qed.

Lemma erase_digit_inv s s' (row col : Z) (r : op_result) :
  erase_digit s row col = Returns (r, s') ->
  s' = s \/
  (load (fixed s) row col = Returns FALSE /\
   set_puzzle s row col 0 = Returns s').
Proof.
  unfold erase_digit.
  destruct (in_range row), (in_range col); simpl;
    try (intros [= _ <-]; by left).
  unfold_bind.
  destruct (load (puzzle s) row col) as [x| |]; [|done..].
  destruct (x =? 0); [intros [= _ <-]; by left|].
  destruct (load (fixed s) row col) as [[|]| |]; [|idtac|done..].
  - intros [= _ <-]. by left.
  - simpl. destruct (set_puzzle _ _ _ _) as [s1| |]; [|done..].
    intros [= _ <-]. by right.
Qed.

(** *** Lines read by [configure] *)

Lemma if_u_returns {A} `{EqDecision A} (c : option bool) (e : outcome A)
    (a : A) (st : Z) :
  if_u c (Exits st) e = Returns a -> c = Some false /\ e = Returns a.
Proof.
  destruct c as [[|]|]; simpl; [done | done |]. by case_decide.
Qed.

Lemma or_u_false (a b : option bool) :
  or_u a b = Some false -> a = Some false /\ b = Some false.
Proof. by destruct a as [[|]|], b as [[|]|]. Qed.

Lemma not_in_range_u_false (x : option Z) :
  not_in_range_u x = Some false -> exists v, x = Some v /\ in_range v = true.
Proof.
  destruct x as [v|]; [|done]. simpl. intros [= H]. exists v.
  split; [done|]. by destruct (in_range v).
Qed.

(** A line all of whose four characters were written is tested as the
    source reads. *)
Lemma configure_line_known (line_in : buffer) s (c0 c1 c2 c3 : Z) :
  line_in !! 0%nat = Some (Some c0) -> line_in !! 1%nat = Some (Some c1) ->
  line_in !! 2%nat = Some (Some c2) -> line_in !! 3%nat = Some (Some c3) ->
  configure_line line_in s =
  if negb (c3 =? 10) then Exits 1
  else if negb (in_range (c0 - 48)) || negb (in_range (c1 - 48))
          || negb (in_range (c2 - 48))
  then Exits 1
  else configure_cell s (c0 - 48) (c1 - 48) (c2 - 48).
Proof.
  intros H0 H1 H2 H3. unfold configure_line, char_at.
  rewrite H0, H1, H2, H3. unfold_bind. simpl.
  destruct (negb (c3 =? 10)); [done|]. simpl.
  by destruct (in_range (c0 - 48)), (in_range (c1 - 48)),
              (in_range (c2 - 48)).
Qed.

(** A line is accepted only if its first three characters were written and
    decode to values in 1..9. *)
Lemma configure_line_returns (line_in : buffer) s s' :
  configure_line line_in s = Returns s' ->
  exists c0 c1 c2,
    (in_range (c0 - 48) = true /\ in_range (c1 - 48) = true /\
     in_range (c2 - 48) = true) /\
    configure_cell s (c0 - 48) (c1 - 48) (c2 - 48) = Returns s'.
Proof.
  unfold configure_line. unfold_bind.
  destruct (char_at line_in 0) as [c0| |]; [|done..].
  destruct (char_at line_in 1) as [c1| |]; [|done..].
  destruct (char_at line_in 2) as [c2| |]; [|done..].
  destruct (char_at line_in 3) as [c3| |]; [|done..].
  intros H. apply if_u_returns in H as [_ H].
  apply if_u_returns in H as [Hrange H].
  apply or_u_false in Hrange as [Hrange Hd].
  apply or_u_false in Hrange as [Hr Hc].
  apply not_in_range_u_false in Hr as (row & Hr & Hrow).
  apply not_in_range_u_false in Hc as (col & Hc & Hcol).
  apply not_in_range_u_false in Hd as (digit & Hd & Hdigit).
  destruct c0 as [c0|], c1 as [c1|], c2 as [c2|]; try done.
  simpl in Hr, Hc, Hd, H. injection Hr as <-. injection Hc as <-.
  injection Hd as <-. exists c0, c1, c2. by repeat split.
Qed.

Lemma configure_cell_returns s s' (row col digit : Z) :
  configure_cell s row col digit = Returns s' ->
  load (puzzle s) row col = Returns 0 /\
  exists s1, set_puzzle s row col digit = Returns s1 /\
             set_fixed s1 row col TRUE = Returns s'.
Proof.
  unfold configure_cell. unfold_bind.
  destruct (load (puzzle s) _ _) as [x| |] eqn:Hx; [|done..].
  destruct (Z.eqb_spec x 0) as [->|]; simpl; [|done].
  destruct (orelse _ _) as [[|]| |]; [done| |done..].
  destruct (value_of (region_contains _ _ _ _)) as [[|]| |]; [done| |done..].
  destruct (set_puzzle _ _ _ _) as [s1| |] eqn:Hs1; [|done..].
  intros Hs'. split; [done|]. by exists s1.
Qed.

Lemma configure_line_inv (line_in : buffer) s s' :
  configure_line line_in s = Returns s' ->
  exists row col digit s1,
    1 <= digit <= 9 /\
    set_puzzle s row col digit = Returns s1 /\
    set_fixed s1 row col TRUE = Returns s'.
Proof.
  intros H.
  destruct (configure_line_returns _ _ _ H) as (c0 & c1 & c2 & (_ & _ & Hd) & Hc).
  destruct (configure_cell_returns _ _ _ _ _ Hc) as (_ & s1 & Hs1 & Hs').
  exists (c0 - 48), (c1 - 48), (c2 - 48), s1.
  by apply in_range_spec in Hd.
Qed.

Lemma set_digit_fixed_filled s s' (i j v : Z) :
  fixed_filled s -> 1 <= v <= 9 ->
  set_puzzle s i j v = Returns s' -> fixed_filled s'.
Proof.
  intros Hff Hv Hset r c Hb.
  destruct (set_puzzle_inv _ _ _ _ _ Hset) as [Hst ->].
  rewrite to_short_small in Hst by lia. intros Hfx.
  destruct (Z.eq_dec r i) as [->|Hr]; [destruct (Z.eq_dec c j) as [->|Hc]|].
  - rewrite (load_store_same _ _ _ _ _ Hst). intros [=]. lia.
  - rewrite (load_store_other _ _ _ _ _ _ _ Hst) by lia. by apply Hff.
  - rewrite (load_store_other _ _ _ _ _ _ _ Hst) by lia. by apply Hff.
Qed.

Lemma clear_digit_fixed_filled s s' (i j : Z) :
  fixed_filled s -> load (fixed s) i j = Returns FALSE ->
  set_puzzle s i j 0 = Returns s' -> fixed_filled s'.
Proof.
  intros Hff Hfree Hset r c Hb.
  destruct (set_puzzle_inv _ _ _ _ _ Hset) as [Hst ->]. intros Hfx.
  destruct (Z.eq_dec r i) as [->|Hr]; [destruct (Z.eq_dec c j) as [->|Hc]|].
  - rewrite Hfree in Hfx. discriminate Hfx.
  - rewrite (load_store_other _ _ _ _ _ _ _ Hst) by lia. by apply Hff.
  - rewrite (load_store_other _ _ _ _ _ _ _ Hst) by lia. by apply Hff.
Qed.

Lemma set_fixed_fixed_filled s s1 s' (i j v : Z) :
  fixed_filled s -> 1 <= v <= 9 ->
  set_puzzle s i j v = Returns s1 -> set_fixed s1 i j TRUE = Returns s' ->
  fixed_filled s'.
Proof.
  intros Hff Hv Hset Hfix.
  pose proof (set_digit_fixed_filled _ _ _ _ _ Hff Hv Hset) as Hff1.
  destruct (set_puzzle_inv _ _ _ _ _ Hset) as [Hst _].
  rewrite to_short_small in Hst by lia.
  revert Hfix. unfold set_fixed. unfold_bind.
  destruct (store (fixed s1) i j TRUE) as [f| |] eqn:Hf; [|done..].
  intros [= <-] r c Hb. cbn [fixed puzzle]. intros Hfx.
  destruct (Z.eq_dec r i) as [->|Hr]; [destruct (Z.eq_dec c j) as [->|Hc]|].
  - rewrite (load_store_same _ _ _ _ _ Hst). intros [=]. lia.
  - rewrite (load_store_other _ _ _ _ _ _ _ Hf) in Hfx by lia. by apply Hff1.
  - rewrite (load_store_other _ _ _ _ _ _ _ Hf) in Hfx by lia. by apply Hff1.
Qed.

Lemma set_fixed_wf s s' (i j : Z) (v : bool) :
  wf s -> set_fixed s i j v = Returns s' -> wf s'.
Proof.
  intros [Hp Hf]. unfold set_fixed. unfold_bind.
  destruct (store _ _ _ _) as [f| |] eqn:E; [|done..]. intros [= <-].
  split; simpl; [done|]. by rewrite (store_length _ _ _ _ _ E).
Qed.

(** Editing keeps a board well-formed with all fixed cells filled. *)
Lemma run_preserves s s' (cs : list command) (rs : list op_result) :
  wf s -> fixed_filled s -> run s cs = Returns (rs, s') ->
  wf s' /\ fixed_filled s'.
Proof.
  revert s rs. induction cs as [|c cs IH]; intros s rs Hwf Hff; simpl.
  - by intros [= _ <-].
  - unfold_bind. destruct (exec s c) as [[r s1]| |] eqn:Hc; [|done..].
    destruct (run s1 cs) as [[rs' s2]| |] eqn:Hrun; [|done..].
    intros [= _ <-]. apply (IH s1 rs'); [| |done].
    + destruct c as [row col d|row col]; simpl in Hc.
      * destruct (add_digit_inv _ _ _ _ _ _ Hc) as [->|[_ Hs]]; [done|].
        by apply (set_puzzle_wf s s1 row col d).
      * destruct (erase_digit_inv _ _ _ _ _ Hc) as [->|[_ Hs]]; [done|].
        by apply (set_puzzle_wf s s1 row col 0).
    + destruct c as [row col d|row col]; simpl in Hc.
      * destruct (add_digit_inv _ _ _ _ _ _ Hc) as [->|[Hd Hs]]; [done|].
        by apply (set_digit_fixed_filled s s1 row col d).
      * destruct (erase_digit_inv _ _ _ _ _ Hc) as [->|[Hf Hs]]; [done|].
        by apply (clear_digit_fixed_filled s s1 row col).
Qed.

(** So does seeding. *)
Lemma configure_loop_preserves (fuel : nat) (file : stream) (line_in : buffer)
    s s' :
  wf s -> fixed_filled s ->
  configure_loop fuel file line_in s = Some (Returns s') ->
  wf s' /\ fixed_filled s'.
Proof.
  revert file line_in s. induction fuel as [|fuel IH];
    intros file line_in s Hwf Hff; simpl.
  - destruct (fgets line_in 5 file) as [[? ?]|]; [done|]. by intros [= <-].
  - destruct (fgets line_in 5 file) as [[line_in' rest]|];
      [|by intros [= <-]].
    destruct (configure_line line_in' s) as [s1| |] eqn:Hline; [|done..].
    destruct (configure_line_inv _ _ _ Hline)
      as (row & col & d & s0 & Hd & Hset & Hfix).
    apply IH.
    + apply (set_fixed_wf s0 s1 row col TRUE); [|done].
      by apply (set_puzzle_wf s s0 row col d).
    + by apply (set_fixed_fixed_filled s s0 s1 row col d).
Qed.

Lemma configure_preserves (file : stream) s s' :
  wf s -> fixed_filled s -> configure file s = Some (Returns s') ->
  wf s' /\ fixed_filled s'.
Proof. apply configure_loop_preserves. Qed.

(** ** Argument checking of [add_digit] *)

(** C7. For every board state and every [(row, col, digit)] with at least
    one component outside 1..9, [add_digit] returns [OP_BADARGS] and both
    tables are exactly what they were. *)
Theorem add_digit_out_of_range s (row col digit : Z) :
  ~ (1 <= row <= 9 /\ 1 <= col <= 9 /\ 1 <= digit <= 9) ->
  add_digit s row col digit = Returns (OP_BADARGS, s).
Proof.
  intros H. apply add_digit_bad_args. by apply not_all_in_range.
Qed.

Lemma add_digit_out_of_range_witness :
  ~ (1 <= 3 <= 9 /\ 1 <= 10 <= 9 /\ 1 <= 4 <= 9) /\
  add_digit board_77 3 10 4 = Returns (OP_BADARGS, board_77).
Proof.
  assert (H : ~ (1 <= 3 <= 9 /\ 1 <= 10 <= 9 /\ 1 <= 4 <= 9)) by lia.
  split; [exact H | exact (add_digit_out_of_range board_77 3 10 4 H)].
Defined.

(** ** Fixed cells *)

(** Any session aimed at one fixed, filled cell leaves both tables alone. *)
Lemma run_on_fixed_cell s (row col x : Z) (cs : list command) :
  in_range row = true -> in_range col = true ->
  load (fixed s) row col = Returns TRUE ->
  load (puzzle s) row col = Returns x -> x <> 0 ->
  Forall (fun c => target c = (row, col)) cs ->
  exists rs, run s cs = Returns (rs, s) /\ Forall rejected rs.
Proof.
  intros Hr Hc Hf Hx Hne. induction 1 as [|c cs Hc0 _ [rs [IH1 IH2]]]; simpl.
  - exists []. by split.
  - assert (exists r, exec s c = Returns (r, s) /\ rejected r) as (r & -> & Hrej).
    { destruct c as [r0 c0 d|r0 c0]; simpl in *; injection Hc0 as -> ->.
      - destruct (in_range d) eqn:Hd.
        + exists OP_OCCUPIED. split; [by eapply add_digit_occupied | firstorder].
        + exists OP_BADARGS. split; [|firstorder].
          apply add_digit_bad_args. by rewrite Hd, andb_false_r.
      - exists OP_FIXED. split; [by eapply erase_digit_fixed | firstorder]. }
    unfold_bind. rewrite IH1. exists (r :: rs). split; [done | by constructor].
Qed.

(** C5, as the code has it. For a fixed cell holding a digit: [erase_digit]
    returns [OP_FIXED]; [add_digit] returns [OP_OCCUPIED] when its digit is in
    1..9 and [OP_BADARGS] when it is not; and any sequence of [add_digit] and
    [erase_digit] calls aimed at the cell is rejected call by call and leaves
    both tables, hence the cell's digit and flag, as they were. *)
Theorem fixed_cell_protected s (row col x : Z) :
  on_board row col ->
  load (fixed s) row col = Returns TRUE ->
  load (puzzle s) row col = Returns x -> x <> 0 ->
  erase_digit s row col = Returns (OP_FIXED, s) /\
  (forall digit, 1 <= digit <= 9 ->
     add_digit s row col digit = Returns (OP_OCCUPIED, s)) /\
  (forall digit, ~ 1 <= digit <= 9 ->
     add_digit s row col digit = Returns (OP_BADARGS, s)) /\
  (forall cs, Forall (fun c => target c = (row, col)) cs ->
     exists rs, run s cs = Returns (rs, s) /\ Forall rejected rs).
Proof.
  intros [Hr Hc] Hf Hx Hne.
  apply (proj2 (in_range_spec _)) in Hr, Hc.
  split; [by apply (erase_digit_fixed s row col x)|].
  split.
  { intros d Hd. apply (proj2 (in_range_spec _)) in Hd.
    by apply (add_digit_occupied s row col d x). }
  split.
  - intros d Hd. apply add_digit_bad_args, not_all_in_range. tauto.
  - intros cs Hcs. by apply (run_on_fixed_cell s row col x).
Qed.

Lemma fixed_cell_protected_witness :
  on_board 7 7 /\
  load (fixed seeded_77) 7 7 = Returns TRUE /\
  load (puzzle seeded_77) 7 7 = Returns 5 /\
  erase_digit seeded_77 7 7 = Returns (OP_FIXED, seeded_77) /\
  add_digit seeded_77 7 7 3 = Returns (OP_OCCUPIED, seeded_77) /\
  exists rs,
    run seeded_77 [Erase 7 7; Place 7 7 3; Place 7 7 0; Erase 7 7]
    = Returns (rs, seeded_77).
Proof.
  assert (Hb : on_board 7 7) by (unfold on_board; lia).
  assert (Hx : (5 <> 0)%Z) by lia.
  destruct (fixed_cell_protected seeded_77 7 7 5 Hb eq_refl eq_refl Hx)
    as (He & Ha & _ & Hrun).
  split; [exact Hb|]. split; [reflexivity|]. split; [reflexivity|].
  split; [exact He|]. split; [apply Ha; lia|].
  destruct (Hrun [Erase 7 7; Place 7 7 3; Place 7 7 0; Erase 7 7])
    as (rs & Hrs & _); [repeat constructor|].
  exists rs. exact Hrs.
Defined.

(** C5 as worded fails: [add_digit] aimed at a fixed cell does not always
    answer [OP_OCCUPIED]; with digit 0 on the seeded cell (7,7) the range
    check comes first and the answer is [OP_BADARGS]. *)
Lemma fixed_cell_place_not_always_occupied :
  ~ (forall s row col digit x,
       on_board row col ->
       load (fixed s) row col = Returns TRUE ->
       load (puzzle s) row col = Returns x -> x <> 0 ->
       add_digit s row col digit = Returns (OP_OCCUPIED, s)).
Proof.
  intros H.
  assert (Hb : on_board 7 7) by (unfold on_board; lia).
  specialize (H seeded_77 7 7 0 5 Hb eq_refl eq_refl ltac:(lia)).
  discriminate H.
Qed.

(** ** Seeding from the configuration file *)

Lemma fgets_take_length (n : nat) (file : stream) cs rest :
  fgets_take n file = (cs, rest) ->
  (length file = length cs + length rest)%nat.
Proof.
  revert file cs rest. induction n as [|n IH]; intros [|c file] cs rest; simpl;
    try (intros [= <- <-]; simpl; lia).
  destruct (c =? 10); [intros [= <- <-]; simpl; lia|].
  destruct (fgets_take n file) as [cs' rest'] eqn:E. intros [= <- <-].
  specialize (IH _ _ _ E). simpl. lia.
Qed.

Lemma fgets_consumes (line_in line_in' : buffer) (n : nat) (file rest : stream) :
  fgets line_in n file = Some (line_in', rest) ->
  (length rest < length file)%nat.
Proof.
  unfold fgets. destruct (fgets_take (n - 1) file) as [cs rest'] eqn:E.
  apply fgets_take_length in E. destruct cs as [|c cs]; [done|].
  intros [= _ <-]. simpl in E. lia.
Qed.

(** The loop of [configure] always comes to an end within the fuel that
    [configure] gives it. *)
Lemma configure_loop_fuel (fuel : nat) (file : stream) (line_in : buffer) s :
  (length file <= fuel)%nat ->
  exists o, configure_loop fuel file line_in s = Some o.
Proof.
  revert file line_in s. induction fuel as [|fuel IH]; intros file line_in s Hlen.
  - destruct file; [|simpl in Hlen; lia]. simpl. eauto.
  - simpl. destruct (fgets line_in 5 file) as [[line_in' rest]|] eqn:E; [|eauto].
    apply fgets_consumes in E.
    destruct (configure_line line_in' s); eauto. apply IH. lia.
Qed.

(** X20. The loop of [configure] ends on every file: reading stops at the
    first rejected line or when the file is used up. *)
Lemma configure_terminates (file : stream) s :
  exists o, configure file s = Some o.
Proof. apply configure_loop_fuel. lia. Qed.

Lemma configure_line_turned_down s (c0 c1 c2 : Z) :
  turned_down s (c0 - 48) (c1 - 48) (c2 - 48) ->
  configure_line [Some c0; Some c1; Some c2; Some 10; Some 0] s = Exits 1.
Proof.
  intros H.
  rewrite (configure_line_known _ s c0 c1 c2 10) by reflexivity.
  unfold configure_cell. simpl. unfold_bind.
  destruct (in_range (c0 - 48) && in_range (c1 - 48) && in_range (c2 - 48))
    eqn:Hrange.
  - apply andb_prop in Hrange as [Hrange Hd].
    apply andb_prop in Hrange as [Hr Hc]. rewrite Hr, Hc, Hd. simpl.
    destruct H as [H | [(x & Hx & Hne) | (Hx & Hq)]].
    + apply in_range_spec in Hr, Hc, Hd. tauto.
    + rewrite Hx. by destruct (Z.eqb_spec x 0).
    + rewrite Hx. simpl. unfold orelse. unfold_bind.
      destruct Hq as [-> | [-> ->]]; reflexivity.
  - destruct (in_range (c0 - 48)), (in_range (c1 - 48)), (in_range (c2 - 48));
      done.
Qed.

(** A well-formed line fills the whole array. *)
Lemma fgets_full_line (line_in : buffer) (c0 c1 c2 : Z) (rest : stream) :
  length line_in = 5%nat -> c0 <> 10 -> c1 <> 10 -> c2 <> 10 ->
  fgets line_in 5 (c0 :: c1 :: c2 :: 10 :: rest)
  = Some ([Some c0; Some c1; Some c2; Some 10; Some 0], rest).
Proof.
  intros Hlen H0 H1 H2. unfold fgets. cbn [Nat.sub fgets_take].
  apply Z.eqb_neq in H0, H1, H2. rewrite H0, H1, H2. cbn.
  by destruct line_in as [|? [|? [|? [|? [|? [|? ?]]]]]].
Qed.

(** ** The row and column queries against a full scan *)

(** [holds] is the scan the specification describes. *)
Lemma holds_spec s (rows cols : list Z) (digit : Z) :
  holds s rows cols digit = true <->
  exists r c, In r rows /\ In c cols /\ load (puzzle s) r c = Returns digit.
Proof.
  unfold holds. rewrite existsb_exists. split.
  - intros (r & Hr & H). apply existsb_exists in H as (c & Hc & H).
    exists r, c. repeat split; try done.
    destruct (load (puzzle s) r c) as [x| |]; [|done..].
    by apply Z.eqb_eq in H as ->.
  - intros (r & c & Hr & Hc & H). exists r. split; [done|].
    apply existsb_exists. exists c. split; [done|].
    rewrite H. apply Z.eqb_refl.
Qed.

Lemma one_to_nine_spec (k : Z) : In k one_to_nine <-> 1 <= k <= 9.
Proof. unfold one_to_nine. simpl. lia. Qed.

Lemma row_holds_spec s (row digit : Z) :
  row_holds s row digit = true <->
  exists c, 1 <= c <= 9 /\ load (puzzle s) row c = Returns digit.
Proof.
  unfold row_holds. rewrite holds_spec. split.
  - intros (r & c & [<- | []] & Hc & H). apply one_to_nine_spec in Hc. eauto.
  - intros (c & Hc & H). exists row, c. rewrite one_to_nine_spec. simpl. eauto.
Qed.

Lemma col_holds_spec s (col digit : Z) :
  col_holds s col digit = true <->
  exists r, 1 <= r <= 9 /\ load (puzzle s) r col = Returns digit.
Proof.
  unfold col_holds. rewrite holds_spec. split.
  - intros (r & c & Hr & [<- | []] & H). apply one_to_nine_spec in Hr. eauto.
  - intros (r & Hr & H). exists r, col. rewrite one_to_nine_spec. simpl. eauto.
Qed.

(** The answer of [row_contains] is decided by column 1 alone, and that of
    [col_contains] by row 1 alone. *)
Lemma row_contains_first_cell s (row digit x : Z) :
  load (puzzle s) row 1 = Returns x ->
  value_of (row_contains s row digit) = Returns (x =? digit).
Proof. intros H. rewrite row_contains_unfold. unfold_bind. by rewrite H. Qed.

Lemma col_contains_first_cell s (col digit x : Z) :
  load (puzzle s) 1 col = Returns x ->
  value_of (col_contains s col digit) = Returns (x =? digit).
Proof. intros H. rewrite col_contains_unfold. unfold_bind. by rewrite H. Qed.

(** C1, at a board the code produces. After [add_digit(7, 8, 5)] on the
    empty board, row 7 holds a 5 (at column 8) and column 8 holds a 5 (at
    row 7), yet [row_contains(7, 5)] and [col_contains(8, 5)] both return
    [FALSE]: each returns from inside the first iteration of its loop. *)
Theorem row_col_contains_stop_at_first_cell :
  add_digit zero_state 7 8 5 = Returns (OP_OK, board_78) /\
  row_holds board_78 7 5 = true /\
  value_of (row_contains board_78 7 5) = Returns FALSE /\
  col_holds board_78 8 5 = true /\
  value_of (col_contains board_78 8 5) = Returns FALSE.
Proof. repeat split; reflexivity. Qed.

(** ** The region query against a scan of the 3x3 block *)

(** C2, at a board the code produces. With a 5 at (7,8), the block of (7,7)
    holds a 5, yet [region_contains(7, 7, 5)] returns [FALSE]: column 7
    fails the test [col >= 7 && col >= 9] and the final [else] answers. *)
Theorem region_contains_misses_block_9 :
  add_digit zero_state 7 8 5 = Returns (OP_OK, board_78) /\
  block_holds board_78 7 7 5 = true /\
  region_contains board_78 7 7 5 = Returns (Return FALSE).
Proof. repeat split; reflexivity. Qed.

(** C10, at the empty board. [region_search(1, 5)] finds nothing and reaches
    its closing brace; [region_contains(1, 1, 5)] calls it, drops the value
    and reaches its own closing brace; so the value [add_digit(1, 1, 5)]
    tests is not defined. *)
Theorem region_contains_runs_off_the_end :
  region_search zero_state 1 5 = Returns FallThrough /\
  region_contains zero_state 1 1 5 = Returns FallThrough /\
  value_of (region_contains zero_state 1 1 5) = Undefined /\
  add_digit zero_state 1 1 5 = Undefined.
Proof. repeat split; reflexivity. Qed.

(** ** The uniqueness invariants under editing *)

Lemma zero_state_unique (related : Z -> Z -> Z -> Z -> Prop) :
  unique_among related zero_state.
Proof.
  intros r1 c1 r2 c2 d _ _ _ Hd H1 _. exfalso. apply Hd.
  revert H1. unfold load, zero_state. cbn [puzzle].
  destruct (offset r1 c1) as [k|]; [|done].
  destruct (replicate 100 0 !! k) as [x|] eqn:E; [|done].
  apply lookup_replicate in E as [-> _]. by intros [= <-].
Qed.

(** C3, at sessions the code accepts. From the empty board, which satisfies
    all three invariants, placing a 5 at (7,7) and then at (7,8) succeeds
    twice and leaves two 5s in row 7 and in one region; placing a 5 at (7,7)
    and then at (8,7) succeeds twice and leaves two 5s in column 7. *)
Theorem editing_breaks_uniqueness :
  (rows_unique zero_state /\ cols_unique zero_state /\
   regions_unique zero_state) /\
  (run zero_state [Place 7 7 5; Place 7 8 5]
   = Returns ([OP_OK; OP_OK], board_77_78) /\
   ~ rows_unique board_77_78 /\ ~ regions_unique board_77_78) /\
  (run zero_state [Place 7 7 5; Place 8 7 5]
   = Returns ([OP_OK; OP_OK], board_77_87) /\
   ~ cols_unique board_77_87).
Proof.
  assert (H77 : on_board 7 7) by (unfold on_board; lia).
  assert (H78 : on_board 7 8) by (unfold on_board; lia).
  assert (H87 : on_board 8 7) by (unfold on_board; lia).
  split; [split; [|split]; apply zero_state_unique|]. split.
  - split; [reflexivity|]. split; intros H.
    + destruct (H 7 7 7 8 5 H77 H78 eq_refl ltac:(lia) eq_refl eq_refl); lia.
    + destruct (H 7 7 7 8 5 H77 H78 (conj eq_refl eq_refl) ltac:(lia)
                  eq_refl eq_refl); lia.
  - split; [reflexivity|]. intros H.
    destruct (H 7 7 8 7 5 H77 H87 eq_refl ltac:(lia) eq_refl eq_refl); lia.
Qed.

(** ** [init_puzzle] *)

(** Total correctness of a counting loop from a loop invariant. *)
Lemma loop_from_invariant {St} (P : Z -> St -> Prop) (n : nat) (i : Z)
    (body : Z -> St -> outcome St) (s : St) :
  P i s ->
  (forall k x, i <= k < i + Z.of_nat n -> P k x ->
     exists y, body k x = Returns y /\ P (k + 1) y) ->
  exists s', loop_from n i body s = Returns (i + Z.of_nat n, s') /\
             P (i + Z.of_nat n) s'.
Proof.
  revert i s. induction n as [|n IH]; intros i s Hs Hbody.
  - simpl. rewrite Z.add_0_r. eauto.
  - destruct (Hbody i s ltac:(lia) Hs) as (y & Hy & HPy).
    destruct (IH (i + 1) y HPy) as (s' & Hs' & HP').
    { intros k x Hk. apply Hbody. lia. }
    exists s'. cbn [loop_from]. unfold_bind. rewrite Hy.
    replace (i + Z.of_nat (S n)) with (i + 1 + Z.of_nat n) by lia. auto.
Qed.

(** What the loop nest does on tables of the declared size: it stops with
    both counters at 10, every cell of the board holds 0, and [fixed] has
    not been written. *)
Lemma init_puzzle_loops_spec s :
  wf s ->
  exists s1,
    init_puzzle_loops s = Returns (10, (Some 10, s1)) /\
    wf s1 /\ fixed s1 = fixed s /\
    (forall r c, on_board r c -> load (puzzle s1) r c = Returns 0).
Proof.
  intros Hwf. unfold init_puzzle_loops, loop_lt.
  set (rows_done := fun (i : Z) (x : state) =>
         wf x /\ fixed x = fixed s /\
         forall r c, 1 <= r < i -> 1 <= c <= 9 ->
                     load (puzzle x) r c = Returns 0).
  destruct (loop_from_invariant
              (fun i '(j, x) => (1 < i -> j = Some 10) /\ rows_done i x)
              (Z.to_nat (10 - 1)) 1
              (fun i '(_, s0) =>
                 '(j, s') ← loop_from (Z.to_nat (10 - 1)) 1
                              (fun j s1 => set_puzzle s1 i j 0) s0;
                 Returns (Some j, s'))
              (None, s)) as ([j s1] & Hrun & Hj & Hwf1 & Hfx & Hzero).
  - split; [lia|]. repeat split; try apply Hwf. intros r c Hr. lia.
  - intros i [j0 x] Hi (_ & Hwfx & Hfx & Hrows).
    destruct (loop_from_invariant
                (fun j y => rows_done i y /\
                   forall c, 1 <= c < j -> load (puzzle y) i c = Returns 0)
                (Z.to_nat (10 - 1)) 1 (fun j s1 => set_puzzle s1 i j 0) x)
      as (y & Hy & (Hwfy & Hfy & Hrows') & Hcols).
    + split; [done|]. intros c Hc. lia.
    + intros j y Hj ((Hwfy & Hfy & Hrows') & Hcols).
      destruct (set_puzzle_defined y i j 0 Hwfy) as [y' Hy'];
        [unfold in_bounds; lia..|].
      exists y'. split; [done|].
      destruct (set_puzzle_inv _ _ _ _ _ Hy') as [Hst Hfx'].
      change (to_short 0) with 0 in Hst.
      split; [split; [|split]|].
      * by apply (set_puzzle_wf y y' i j 0).
      * congruence.
      * intros r c Hr Hc.
        rewrite (load_store_other _ _ _ _ _ _ _ Hst) by lia. by apply Hrows'.
      * intros c Hc. destruct (Z.eq_dec c j) as [->|Hne].
        -- apply (load_store_same _ _ _ _ _ Hst).
        -- rewrite (load_store_other _ _ _ _ _ _ _ Hst) by lia.
           apply Hcols. lia.
    + exists (Some (1 + Z.of_nat (Z.to_nat (10 - 1))), y). unfold_bind.
      rewrite Hy. split; [done|]. split; [done|].
      split; [done|]. split; [done|].
      intros r c Hr Hc. destruct (Z.eq_dec r i) as [->|Hne].
      * apply Hcols. lia.
      * apply Hrows'; lia.
  - exists s1. rewrite Hrun. rewrite Hj by lia.
    split; [done|]. split; [done|]. split; [done|].
    intros r c [Hr Hc]. apply Hzero; lia.
Qed.

(** After the loops both counters are 10, so the one store into [fixed]
    goes to [fixed[10][10]], outside the table. *)
Lemma init_puzzle_out_of_bounds s : wf s -> init_puzzle s = Undefined.
Proof.
  intros Hwf. unfold init_puzzle.
  destruct (init_puzzle_loops_spec s Hwf) as (s1 & -> & _). reflexivity.
Qed.

(** C4, at boards the program reaches. On the tables as they are when [main]
    calls [init_puzzle], the store into [fixed] is aimed at [fixed[10][10]],
    which the table does not have.  On the board seeded with a 5 at (7,7),
    the loops clear every digit and stop with both counters at 10, and the
    flag of (7,7) is still [TRUE]. *)
Theorem init_puzzle_skips_flags :
  init_puzzle zero_state = Undefined /\
  configure file_775 zero_state = Some (Returns seeded_77) /\
  (exists s1,
     init_puzzle_loops seeded_77 = Returns (10, (Some 10, s1)) /\
     load (puzzle s1) 7 7 = Returns 0 /\
     load (fixed s1) 7 7 = Returns TRUE) /\
  set_fixed seeded_77 10 10 FALSE = Undefined /\
  init_puzzle seeded_77 = Undefined.
Proof.
  split; [by vm_compute|]. split; [by vm_compute|].
  split; [|split; by vm_compute].
  exists (mkState (replicate 100 0) (fixed seeded_77)).
  repeat split; by vm_compute.
Qed.

(** ** Placing a digit, whatever the test of [region_contains] finds *)

(** [add_digit] is the reading that assumes no value. *)
Lemma add_digit_strict s (row col digit : Z) :
  add_digit s row col digit = add_digit_seeing strict s row col digit.
Proof. reflexivity. Qed.

Lemma no_exit_value_or {A} (junk : option A) (call : outcome (flow A)) :
  no_exit call -> no_exit (value_or junk call).
Proof.
  intros H. apply no_exit_bind; [done|].
  intros [|a]; [|apply no_exit_Returns].
  destruct junk; [apply no_exit_Returns | apply no_exit_Undefined].
Qed.

#[local] Hint Resolve no_exit_value_or : no_exit.

Lemma add_digit_seeing_no_exit (junk : found) s (row col digit : Z) :
  no_exit (add_digit_seeing junk s row col digit).
Proof. unfold add_digit_seeing, orelse. repeat no_exit_step. Qed.

Lemma add_digit_seeing_ok_inv (junk : found) s s' (row col digit : Z) :
  add_digit_seeing junk s row col digit = Returns (OP_OK, s') ->
  (in_range row = true /\ in_range col = true /\ in_range digit = true) /\
  load (puzzle s) row col = Returns 0 /\
  set_puzzle s row col digit = Returns s'.
Proof.
  unfold add_digit_seeing.
  destruct (in_range row), (in_range col), (in_range digit); simpl; try done.
  unfold_bind.
  destruct (load (puzzle s) row col) as [x| |] eqn:Hx; [|done..].
  destruct (Z.eqb_spec x 0) as [->|]; simpl; [|done].
  destruct (orelse _ _) as [[|]| |]; [done| |done..].
  destruct (value_or _ (region_contains _ _ _ _)) as [[|]| |]; [done| |done..].
  destruct (set_puzzle _ _ _ _) as [s1| |]; [|done..].
  by intros [= <-].
Qed.

Lemma add_digit_seeing_occupied (junk : found) s (row col digit x : Z) :
  in_range row = true -> in_range col = true -> in_range digit = true ->
  load (puzzle s) row col = Returns x -> x <> 0 ->
  add_digit_seeing junk s row col digit = Returns (OP_OCCUPIED, s).
Proof.
  intros Hr Hc Hd Hx Hne. unfold add_digit_seeing. rewrite Hr, Hc, Hd. simpl.
  unfold_bind. rewrite Hx. by destruct (Z.eqb_spec x 0).
Qed.

Lemma first_cells_defined s (row col : Z) :
  wf s -> on_board row col ->
  exists a b, load (puzzle s) row 1 = Returns a /\
              load (puzzle s) 1 col = Returns b.
Proof.
  intros [Hp _] [Hr Hc].
  destruct (load_defined (puzzle s) row 1 Hp) as [a Ha];
    [unfold in_bounds; lia..|].
  destruct (load_defined (puzzle s) 1 col Hp) as [b Hb];
    [unfold in_bounds; lia..|].
  eauto.
Qed.

(** On an empty cell the answer depends on the first cell of the row, the
    first cell of the column, on whether [region_contains] has a [return]
    for the cell and, where it has none, on the value found. *)
Lemma add_digit_seeing_on_empty_cell (junk : found) s (row col digit a b : Z) :
  wf s -> on_board row col -> 1 <= digit <= 9 ->
  load (puzzle s) row col = Returns 0 ->
  load (puzzle s) row 1 = Returns a -> load (puzzle s) 1 col = Returns b ->
  add_digit_seeing junk s row col digit =
  if (a =? digit) || (b =? digit) then Returns (OP_ILLEGAL, s)
  else
    match (if region_contains_returns row col then Some FALSE
           else junk s row col digit) with
    | Some true => Returns (OP_ILLEGAL, s)
    | Some false => s' ← set_puzzle s row col digit; Returns (OP_OK, s')
    | None => Undefined
    end.
Proof.
  intros Hwf Hb Hd Hx Ha Hb1. pose proof Hb as [Hr Hc].
  apply (proj2 (in_range_spec _)) in Hr, Hc, Hd.
  unfold add_digit_seeing. rewrite Hr, Hc, Hd. simpl. unfold_bind.
  rewrite Hx. simpl.
  rewrite row_contains_unfold, col_contains_unfold. unfold_bind.
  rewrite Ha, Hb1. unfold orelse, value_of. unfold_bind.
  rewrite (region_contains_cases s row col digit Hwf Hb).
  destruct (a =? digit); simpl; [done|].
  destruct (b =? digit); simpl; [done|].
  destruct (region_contains_returns row col); [done|]. simpl.
  by destruct (junk s row col digit) as [[|]|].
Qed.

(** [erase_digit] always returns a status. *)
Lemma erase_digit_total s (row col : Z) :
  wf s -> exists r s', erase_digit s row col = Returns (r, s').
Proof.
  intros Hwf. unfold erase_digit.
  destruct (in_range row) eqn:Hr, (in_range col) eqn:Hc; simpl; eauto.
  destruct (load_defined (puzzle s) row col) as [x Hx];
    [apply Hwf | by apply in_range_in_bounds..|].
  destruct (load_defined (fixed s) row col) as [f Hf];
    [apply Hwf | by apply in_range_in_bounds..|].
  unfold_bind. rewrite Hx. destruct (x =? 0); [eauto|]. rewrite Hf.
  destruct (bool_decide (f = TRUE)); [eauto|].
  destruct (set_puzzle_defined s row col 0 Hwf) as [s' ->];
    [by apply in_range_in_bounds..|].
  eauto.
Qed.

(** [add_digit] returns a status whenever its test of [region_contains]
    finds a value. *)
Lemma add_digit_seeing_total (junk : found) s (row col digit : Z) (b : bool) :
  wf s -> junk s row col digit = Some b ->
  exists r s', add_digit_seeing junk s row col digit = Returns (r, s').
Proof.
  intros Hwf Hjunk.
  destruct (in_range row && in_range col && in_range digit) eqn:Hrange.
  - apply andb_prop in Hrange as [Hrange Hd].
    apply andb_prop in Hrange as [Hr Hc].
    assert (Hb : on_board row col)
      by (apply in_range_spec in Hr, Hc; by split).
    destruct (load_defined (puzzle s) row col) as [x Hx];
      [apply Hwf | by apply in_range_in_bounds..|].
    destruct (Z.eq_dec x 0) as [->|Hx0].
    + destruct (first_cells_defined s row col Hwf Hb) as (a & c & Ha & Hc1).
      rewrite (add_digit_seeing_on_empty_cell junk s row col digit a c)
        by (done || by apply in_range_spec).
      destruct ((a =? digit) || (c =? digit)); [eauto|].
      destruct (set_puzzle_defined s row col digit Hwf) as [s' Hs'];
        [by apply in_range_in_bounds..|].
      unfold_bind. rewrite Hjunk, Hs'.
      destruct (region_contains_returns row col); [eauto|].
      destruct b; eauto.
    + exists OP_OCCUPIED, s. by apply (add_digit_seeing_occupied junk s _ _ _ x).
  - exists OP_BADARGS, s. unfold add_digit_seeing.
    by destruct (in_range row), (in_range col), (in_range digit).
Qed.

(** ** Placing and then erasing *)

(** C8. Whatever the test of [region_contains] finds where the function
    lacks a [return]: on a cell whose [fixed] flag is clear, if [add_digit]
    succeeds then the [erase_digit] that follows succeeds too, the cell is
    empty again, and every other cell and every flag is as the placement
    left it; in fact both tables are back to what they were before the
    placement. *)
Theorem add_then_erase (junk : found) s s1 (row col digit : Z) :
  load (fixed s) row col = Returns FALSE ->
  add_digit_seeing junk s row col digit = Returns (OP_OK, s1) ->
  exists s2,
    erase_digit s1 row col = Returns (OP_OK, s2) /\
    load (puzzle s2) row col = Returns 0 /\
    (forall r c, ~ (r = row /\ c = col) ->
       load (puzzle s2) r c = load (puzzle s1) r c) /\
    fixed s2 = fixed s1 /\
    s2 = s.
Proof.
  intros Hfree Hadd.
  destruct (add_digit_seeing_ok_inv _ _ _ _ _ _ Hadd)
    as ((Hr & Hc & Hd) & Hempty & Hset).
  destruct (set_puzzle_inv _ _ _ _ _ Hset) as [Hst Hfx].
  pose proof Hd as Hd'. apply in_range_spec in Hd'.
  rewrite to_short_small in Hst by lia.
  assert (Hnow : load (puzzle s1) row col = Returns digit)
    by (by apply load_store_same with (arr := puzzle s)).
  assert (Hback : exists p, store (puzzle s1) row col 0 = Returns p).
  { revert Hst. unfold store. destruct (offset row col) as [k|]; [|done].
    case_decide; [|done]. intros [= <-]. rewrite length_insert.
    case_decide; [eauto | done]. }
  destruct Hback as [p Hp].
  exists (mkState p (fixed s1)).
  rewrite (erase_digit_ok s1 row col digit) by (done || lia || congruence).
  unfold set_puzzle. unfold_bind. change (to_short 0) with 0. rewrite Hp.
  repeat split.
  - by apply load_store_same with (arr := puzzle s1).
  - intros r c Hne. cbn [puzzle].
    by apply load_store_other with (i := row) (j := col) (v := 0).
  - rewrite (store_store_back _ _ _ _ _ _ _ Hempty Hst Hp), Hfx.
    by destruct s.
Qed.

Lemma add_then_erase_witness :
  exists s1,
    add_digit_seeing reads_false zero_state 1 1 5 = Returns (OP_OK, s1) /\
    load (puzzle s1) 1 1 = Returns 5 /\
    erase_digit s1 1 1 = Returns (OP_OK, zero_state).
Proof.
  eexists. split; [reflexivity|]. split; [reflexivity|].
  destruct (add_then_erase reads_false zero_state _ 1 1 5 eq_refl eq_refl)
    as (s2 & He & _ & _ & _ & ->).
  exact He.
Defined.

(** ** A placement that the rules forbid *)


(** ** Who returns and who exits *)

Lemma or_u_true_l (b : option bool) : or_u (Some true) b = Some true.
Proof. done. Qed.

Lemma or_u_true_r (a : option bool) : or_u a (Some true) = Some true.
Proof. by destruct a as [[|]|]. Qed.

Lemma if_u_same {A} `{EqDecision A} (c : option bool) (t : outcome A) :
  if_u c t t = t.
Proof. destruct c as [[|]|]; simpl; [done..|]. by case_decide. Qed.

(** A line on which one of the first three characters is known and decodes
    to a value outside 1..9 is turned away, whatever the others are. *)
Lemma configure_line_out_of_range s (o0 o1 o2 o3 o4 : option Z) :
  not_in_range_u (sub_u o0 48) = Some true \/
  not_in_range_u (sub_u o1 48) = Some true \/
  not_in_range_u (sub_u o2 48) = Some true ->
  configure_line [o0; o1; o2; o3; o4] s = Exits 1.
Proof.
  intros H. unfold configure_line, char_at. cbn [lookup list_lookup].
  unfold_bind.
  assert (or_u (or_u (not_in_range_u (sub_u o0 48))
                     (not_in_range_u (sub_u o1 48)))
               (not_in_range_u (sub_u o2 48)) = Some true) as ->.
  { destruct H as [-> | [-> | ->]];
      by rewrite ?or_u_true_l, ?or_u_true_r. }
  cbn [if_u]. apply if_u_same.
Qed.

(** A line whose fourth character is known not to be the newline is turned
    away, whatever the first three are. *)
Lemma configure_line_unterminated s (o0 o1 o2 o4 : option Z) (c3 : Z) :
  c3 <> 10 -> configure_line [o0; o1; o2; Some c3; o4] s = Exits 1.
Proof.
  intros H. unfold configure_line, char_at. cbn [lookup list_lookup].
  unfold_bind. cbn [neq_u fmap option_fmap option_map].
  apply Z.eqb_neq in H. by rewrite H.
Qed.

(** The first line of a file ends the process unless it is three characters
    and a newline that [configure] does not turn down: a shorter line leaves
    a newline or the terminating 0 among the first three characters, a
    longer one a fourth character that is not the newline. *)
Lemma configure_first_line_rejected s (file : stream) :
  file <> [] ->
  (forall c0 c1 c2 rest, file = c0 :: c1 :: c2 :: 10 :: rest ->
     turned_down s (c0 - 48) (c1 - 48) (c2 - 48)) ->
  configure file s = Some (Exits 1).
Proof.
  intros Hne Hbad. unfold configure.
  destruct file as [|c0 file]; [done|]. cbn [length configure_loop].
  assert (Hnl : not_in_range_u (sub_u (Some 10) 48) = Some true) by done.
  assert (Hnul : not_in_range_u (sub_u (Some 0) 48) = Some true) by done.
  unfold fgets. cbn [Nat.sub fgets_take].
  destruct (Z.eqb_spec c0 10) as [->|H0].
  { cbn -[configure_line]. rewrite configure_line_out_of_range; [done | tauto]. }
  destruct file as [|c1 file]; cbn [fgets_take].
  { cbn -[configure_line]. rewrite configure_line_out_of_range; [done | tauto]. }
  destruct (Z.eqb_spec c1 10) as [->|H1].
  { cbn -[configure_line]. rewrite configure_line_out_of_range; [done | tauto]. }
  destruct file as [|c2 file]; cbn [fgets_take].
  { cbn -[configure_line]. rewrite configure_line_out_of_range; [done | tauto]. }
  destruct (Z.eqb_spec c2 10) as [->|H2].
  { cbn -[configure_line]. rewrite configure_line_out_of_range; [done | tauto]. }
  destruct file as [|c3 file]; cbn [fgets_take].
  { cbn -[configure_line]. rewrite configure_line_unterminated; [done | lia]. }
  destruct (Z.eqb_spec c3 10) as [->|H3].
  - cbn -[configure_line]. rewrite configure_line_turned_down; [done|].
    by eapply Hbad.
  - cbn -[configure_line]. rewrite configure_line_unterminated; done.
Qed.

(** C6, as the code has it.  The editing operations hand their outcome back
    to the caller: on a board of the declared size [erase_digit] always
    returns a status, and so does [add_digit] whenever its test of
    [region_contains] finds a value; neither of them, nor [init_puzzle],
    whose two loops always run to their end, ever ends the process.
    [configure] has no failure value to return: when the first line of the
    file is not three characters and a newline, or names an index or digit
    outside 1..9, an occupied cell, or a digit reported by the row or column
    query, it ends the process with [exit(1)]. *)
Theorem editing_returns_seeding_exits s (file : stream) :
  file <> [] ->
  (forall c0 c1 c2 rest, file = c0 :: c1 :: c2 :: 10 :: rest ->
     turned_down s (c0 - 48) (c1 - 48) (c2 - 48)) ->
  configure file s = Some (Exits 1) /\
  (forall s' row col, wf s' ->
     exists r s'', erase_digit s' row col = Returns (r, s'')) /\
  (forall (junk : found) s' row col digit b,
     wf s' -> junk s' row col digit = Some b ->
     exists r s'', add_digit_seeing junk s' row col digit = Returns (r, s'')) /\
  (forall s', wf s' ->
     exists s1, init_puzzle_loops s' = Returns (10, (Some 10, s1))) /\
  (forall s', no_exit (init_puzzle s')) /\
  (forall (junk : found) s' row col digit,
     no_exit (add_digit_seeing junk s' row col digit)) /\
  (forall s' row col digit, no_exit (add_digit s' row col digit)) /\
  (forall s' row col, no_exit (erase_digit s' row col)).
Proof.
  intros Hne Hbad.
  split; [by apply configure_first_line_rejected|].
  split; [intros s' row col; apply erase_digit_total|].
  split; [intros junk s' row col digit b; apply add_digit_seeing_total|].
  split.
  { intros s' Hwf.
    destruct (init_puzzle_loops_spec s' Hwf) as (s1 & Hs1 & _). eauto. }
  split; [apply init_puzzle_no_exit|].
  split; [intros; apply add_digit_seeing_no_exit|].
  split; [apply add_digit_no_exit | apply erase_digit_no_exit].
Qed.

Lemma editing_returns_seeding_exits_witness :
  configure [55; 10] seeded_77 = Some (Exits 1) /\
  configure [55; 55; 54; 10] seeded_77 = Some (Exits 1) /\
  (exists r s', erase_digit seeded_77 1 1 = Returns (r, s')) /\
  (exists r s', add_digit_seeing reads_false seeded_77 1 1 5
                = Returns (r, s')).
Proof.
  assert (Hwf : wf seeded_77) by (split; reflexivity).
  assert (Hbad : turned_down seeded_77 (55 - 48) (55 - 48) (54 - 48)).
  { right. left. exists 5. split; [reflexivity | lia]. }
  destruct (editing_returns_seeding_exits seeded_77 [55; 10])
    as (Hshort & Herase & Hadd & _); [discriminate | intros; discriminate |].
  destruct (editing_returns_seeding_exits seeded_77 [55; 55; 54; 10])
    as (Hfull & _); [discriminate | by intros ? ? ? ? [= <- <- <- <-] |].
  split; [exact Hshort|]. split; [exact Hfull|].
  split; [exact (Herase seeded_77 1 1 Hwf)|].
  exact (Hadd reads_false seeded_77 1 1 5 FALSE Hwf eq_refl).
Defined.

(** C6 as worded fails: seeding does end the process.  The one-line file
    ["005\n"] makes [configure] call [exit(1)] on the empty board. *)
Lemma configure_exits_on_bad_line :
  ~ (forall file s st, wf s -> configure file s <> Some (Exits st)).
Proof.
  intros H. exact (H [48; 48; 53; 10] zero_state 1 zero_state_wf eq_refl).
Qed.

(** * Further properties of the module *)

(** ** The statuses of [erase_digit] and [add_digit] *)

Lemma load_then_store {A} (arr : list A) (i j : Z) (v w : A) :
  load arr i j = Returns v -> exists arr', store arr i j w = Returns arr'.
Proof.
  unfold load, store. destruct (offset i j) as [k|]; [|done].
  destruct (arr !! k) as [x|] eqn:E; [|done]. intros _.
  apply lookup_lt_Some in E. case_decide; [eauto | lia].
Qed.

Lemma not_both_in_range (row col : Z) :
  ~ (1 <= row <= 9 /\ 1 <= col <= 9) ->
  negb (in_range row) || negb (in_range col) = true.
Proof.
  intros H. destruct (in_range row) eqn:Hr, (in_range col) eqn:Hc; try done.
  apply in_range_spec in Hr, Hc. tauto.
Qed.

(** The ways in which [add_digit] can return. *)
Lemma add_digit_result s s' (row col digit : Z) (r : op_result) :
  add_digit s row col digit = Returns (r, s') ->
  ((r = OP_BADARGS \/ r = OP_OCCUPIED \/ r = OP_ILLEGAL) /\ s' = s) \/
  (r = OP_OK /\ 1 <= digit <= 9 /\ load (puzzle s) row col = Returns 0 /\
   set_puzzle s row col digit = Returns s').
Proof.
  unfold add_digit.
  destruct (in_range row), (in_range col), (in_range digit) eqn:Hd; simpl;
    try (intros [= <- <-]; left; tauto).
  unfold_bind.
  destruct (load (puzzle s) row col) as [x| |]; [|done..].
  destruct (Z.eqb_spec x 0) as [->|]; simpl;
    [|intros [= <- <-]; left; tauto].
  destruct (orelse _ _) as [[|]| |]; [intros [= <- <-]; left; tauto| |done..].
  destruct (value_of (region_contains _ _ _ _)) as [[|]| |];
    [intros [= <- <-]; left; tauto| |done..].
  destruct (set_puzzle _ _ _ _) as [s1| |]; [|done..].
  intros [= <- <-]. right. by apply in_range_spec in Hd.
Qed.

(** The ways in which [erase_digit] can return. *)
Lemma erase_digit_result s s' (row col : Z) (r : op_result) :
  erase_digit s row col = Returns (r, s') ->
  ((r = OP_BADARGS \/ r = OP_EMPTY \/ r = OP_FIXED) /\ s' = s) \/
  (r = OP_OK /\
   (exists x, load (puzzle s) row col = Returns x /\ x <> 0) /\
   load (fixed s) row col = Returns FALSE /\
   set_puzzle s row col 0 = Returns s').
Proof.
  unfold erase_digit.
  destruct (in_range row), (in_range col); simpl;
    try (intros [= <- <-]; left; tauto).
  unfold_bind.
  destruct (load (puzzle s) row col) as [x| |]; [|done..].
  destruct (Z.eqb_spec x 0) as [->|Hx]; [intros [= <- <-]; left; tauto|].
  destruct (load (fixed s) row col) as [[|]| |]; [|idtac|done..].
  - intros [= <- <-]. left. tauto.
  - simpl. destruct (set_puzzle _ _ _ _) as [s1| |]; [|done..].
    intros [= <- <-]. right. split; [done|]. split; [by exists x|]. by split.
Qed.

(** A store that changes the value of a cell changes the table. *)
Lemma set_puzzle_changes s s' (i j v x : Z) :
  load (puzzle s) i j = Returns x -> -32768 <= v < 32768 -> x <> v ->
  set_puzzle s i j v = Returns s' -> s' <> s.
Proof.
  intros Hx Hv Hne Hset ->.
  destruct (set_puzzle_inv _ _ _ _ _ Hset) as [Hst _].
  rewrite to_short_small in Hst by done.
  rewrite (load_store_same _ _ _ _ _ Hst) in Hx. congruence.
Qed.

(** X1. [erase_digit] with a row or column outside 1..9 returns
    [OP_BADARGS] and leaves both tables as they were; no table is read. *)
Theorem erase_digit_out_of_range s (row col : Z) :
  ~ (1 <= row <= 9 /\ 1 <= col <= 9) ->
  erase_digit s row col = Returns (OP_BADARGS, s).
Proof.
  intros H. unfold erase_digit. by rewrite not_both_in_range.
Qed.

Lemma erase_digit_out_of_range_witness :
  ~ (1 <= 7 <= 9 /\ 1 <= 0 <= 9) /\
  erase_digit board_77 7 0 = Returns (OP_BADARGS, board_77).
Proof.
  assert (H : ~ (1 <= 7 <= 9 /\ 1 <= 0 <= 9)) by lia.
  split; [exact H | exact (erase_digit_out_of_range board_77 7 0 H)].
Defined.

(** X2. [erase_digit] on an empty cell of the board returns [OP_EMPTY] and
    leaves both tables as they were, whatever the cell's [fixed] flag. *)
Theorem erase_digit_empty_cell s (row col : Z) :
  on_board row col ->
  load (puzzle s) row col = Returns 0 ->
  erase_digit s row col = Returns (OP_EMPTY, s).
Proof.
  intros [Hr Hc] Hx. apply (proj2 (in_range_spec _)) in Hr, Hc.
  unfold erase_digit. rewrite Hr, Hc. simpl. unfold_bind. by rewrite Hx.
Qed.

Lemma erase_digit_empty_cell_witness :
  on_board 5 5 /\ load (puzzle board_77) 5 5 = Returns 0 /\
  erase_digit board_77 5 5 = Returns (OP_EMPTY, board_77).
Proof.
  assert (Hb : on_board 5 5) by (unfold on_board; lia).
  split; [exact Hb|]. split; [reflexivity|].
  exact (erase_digit_empty_cell board_77 5 5 Hb eq_refl).
Defined.

(** X3. [erase_digit] on a cell of the board that holds a digit and is not
    fixed returns [OP_OK]; afterwards the cell is empty, every other cell
    holds what it held, and the [fixed] table has not been written. *)
Theorem erase_digit_clears_cell s (row col x : Z) :
  on_board row col ->
  load (puzzle s) row col = Returns x -> x <> 0 ->
  load (fixed s) row col = Returns FALSE ->
  exists s',
    erase_digit s row col = Returns (OP_OK, s') /\
    load (puzzle s') row col = Returns 0 /\
    (forall r c, ~ (r = row /\ c = col) ->
       load (puzzle s') r c = load (puzzle s) r c) /\
    fixed s' = fixed s.
Proof.
  intros [Hr Hc] Hx Hne Hf. apply (proj2 (in_range_spec _)) in Hr, Hc.
  destruct (load_then_store (puzzle s) row col x 0 Hx) as [p Hp].
  exists (mkState p (fixed s)).
  rewrite (erase_digit_ok s row col x) by done.
  unfold set_puzzle. unfold_bind. change (to_short 0) with 0. rewrite Hp.
  repeat split.
  - by apply load_store_same with (arr := puzzle s).
  - intros r c Hrc. cbn [puzzle].
    by apply load_store_other with (i := row) (j := col) (v := 0).
Qed.

Lemma erase_digit_clears_cell_witness :
  on_board 7 7 /\ load (puzzle board_77) 7 7 = Returns 5 /\
  load (fixed board_77) 7 7 = Returns FALSE /\
  exists s', erase_digit board_77 7 7 = Returns (OP_OK, s') /\
             load (puzzle s') 7 7 = Returns 0.
Proof.
  assert (Hb : on_board 7 7) by (unfold on_board; lia).
  assert (Hx : (5 <> 0)%Z) by lia.
  split; [exact Hb|]. split; [reflexivity|]. split; [reflexivity|].
  destruct (erase_digit_clears_cell board_77 7 7 5 Hb eq_refl Hx eq_refl)
    as (s' & He & Hz & _).
  exists s'. split; [exact He | exact Hz].
Defined.

(** X4. For both editing operations, [OP_OK] is the only status with which
    the tables are changed, and with [OP_OK] they are changed: whenever a
    call returns, its status is [OP_OK] exactly when the tables after the
    call differ from the tables before it. *)
Theorem status_ok_iff_changed s s' (c : command) (r : op_result) :
  exec s c = Returns (r, s') -> (r = OP_OK <-> s' <> s).
Proof.
  destruct c as [row col digit|row col]; simpl; intros H.
  - destruct (add_digit_result _ _ _ _ _ _ H)
      as [[Hr ->] | (-> & Hd & Hx & Hset)].
    + split; [|done]. intros ->. destruct Hr as [|[|]]; done.
    + split; [|done]. intros _.
      apply (set_puzzle_changes s s' row col digit 0); (done || lia).
  - destruct (erase_digit_result _ _ _ _ _ H)
      as [[Hr ->] | (-> & (x & Hx & Hne) & _ & Hset)].
    + split; [|done]. intros ->. destruct Hr as [|[|]]; done.
    + split; [|done]. intros _.
      apply (set_puzzle_changes s s' row col 0 x); (done || lia).
Qed.

Lemma status_ok_iff_changed_witness :
  exec board_77 (Erase 7 7) = Returns (OP_OK, zero_state) /\
  (OP_OK = OP_OK <-> zero_state <> board_77).
Proof.
  split; [reflexivity|].
  exact (status_ok_iff_changed board_77 zero_state (Erase 7 7) OP_OK eq_refl).
Defined.

(** X5. [add_digit] never answers [OP_EMPTY] or [OP_FIXED], and
    [erase_digit] never answers [OP_OCCUPIED] or [OP_ILLEGAL]. *)
Theorem statuses_by_operation s s' (c : command) (r : op_result) :
  exec s c = Returns (r, s') ->
  match c with
  | Place _ _ _ => r <> OP_EMPTY /\ r <> OP_FIXED
  | Erase _ _ => r <> OP_OCCUPIED /\ r <> OP_ILLEGAL
  end.
Proof.
  destruct c as [row col digit|row col]; simpl; intros H.
  - destruct (add_digit_result _ _ _ _ _ _ H) as [ [ [-> | [-> | ->] ] _ ] | [-> _] ];
      by split.
  - destruct (erase_digit_result _ _ _ _ _ H) as [ [ [-> | [-> | ->] ] _ ] | [-> _] ];
      by split.
Qed.

Lemma statuses_by_operation_witness :
  exec seeded_77 (Erase 7 7) = Returns (OP_FIXED, seeded_77) /\
  OP_FIXED <> OP_OCCUPIED /\ OP_FIXED <> OP_ILLEGAL.
Proof.
  split; [reflexivity|].
  exact (statuses_by_operation seeded_77 seeded_77 (Erase 7 7) OP_FIXED eq_refl).
Defined.

(** ** [add_digit] on an empty cell *)



(** X7. Whatever the test of [region_contains] finds where the function
    lacks a [return]: on a board of the declared size, [add_digit] with a
    cell of the board and a digit in 1..9 returns [OP_OK] exactly when the
    cell is empty, the digit is neither in column 1 of the row nor in row 1
    of the column, and either the cell lies in rows 7..9 and columns 7..8,
    the cells for which [region_contains] executes a [return], or the value
    found reads as false. *)
Theorem add_digit_ok_iff (junk : found) s (row col digit : Z) :
  wf s -> on_board row col -> 1 <= digit <= 9 ->
  ((exists s', add_digit_seeing junk s row col digit = Returns (OP_OK, s')) <->
   load (puzzle s) row col = Returns 0 /\
   load (puzzle s) row 1 <> Returns digit /\
   load (puzzle s) 1 col <> Returns digit /\
   ((7 <= row <= 9 /\ 7 <= col <= 8) \/
    junk s row col digit = Some FALSE)).
Proof.
  intros Hwf Hb Hd.
  destruct (first_cells_defined s row col Hwf Hb) as (a & b & Ha & Hb1).
  assert (Hcells : region_contains_returns row col = true <->
                   7 <= row <= 9 /\ 7 <= col <= 8)
    by (unfold region_contains_returns; lia).
  split.
  - intros [s' Hadd].
    destruct (add_digit_seeing_ok_inv _ _ _ _ _ _ Hadd) as (_ & Hx & _).
    rewrite (add_digit_seeing_on_empty_cell junk s row col digit a b)
      in Hadd by done.
    rewrite Ha, Hb1.
    destruct (Z.eqb_spec a digit) as [->|Hna]; simpl in Hadd; [done|].
    destruct (Z.eqb_spec b digit) as [->|Hnb]; simpl in Hadd; [done|].
    split; [done|]. split; [congruence|]. split; [congruence|].
    destruct (region_contains_returns row col);
      [left; by apply Hcells | right].
    by destruct (junk s row col digit) as [[|]|].
  - intros (Hx & Hna & Hnb & Hcell).
    rewrite (add_digit_seeing_on_empty_cell junk s row col digit a b) by done.
    rewrite Ha in Hna. rewrite Hb1 in Hnb.
    destruct (Z.eqb_spec a digit) as [->|_]; [done|].
    destruct (Z.eqb_spec b digit) as [->|_]; [done|]. simpl.
    destruct (set_puzzle_defined s row col digit Hwf) as [s' Hs'];
      [unfold in_bounds; destruct Hb; lia..|].
    exists s'. unfold_bind. rewrite Hs'.
    destruct (region_contains_returns row col) eqn:Hcell'; [done|].
    destruct Hcell as [Hsix | ->]; [|done].
    apply Hcells in Hsix. congruence.
Qed.

Lemma add_digit_ok_iff_witness :
  (exists s', add_digit_seeing reads_false board_77 4 4 5
              = Returns (OP_OK, s')) /\
  ~ (exists s', add_digit_seeing reads_true board_77 4 4 5
                = Returns (OP_OK, s')).
Proof.
  assert (Hwf : wf board_77) by (split; reflexivity).
  assert (Hb : on_board 4 4) by (unfold on_board; lia).
  assert (Hd : 1 <= 5 <= 9) by lia.
  split.
  - apply (add_digit_ok_iff reads_false board_77 4 4 5 Hwf Hb Hd).
    split; [reflexivity|]. split; [discriminate|]. split; [discriminate|].
    right. reflexivity.
  - intros Hok.
    apply (add_digit_ok_iff reads_true board_77 4 4 5 Hwf Hb Hd) in Hok.
    destruct Hok as (_ & _ & _ & [Hsix | E]); [lia | discriminate E].
Defined.

(** ** [region_search] against a scan of the block *)

(** A loop whose body answers [TRUE] where [p] holds, and goes on where it
    does not, is a search for [p] over the range of its counter. *)
Lemma for_from_scan (n : nat) (i : Z) (body : Z -> outcome (flow bool))
    (p : Z -> bool) :
  (forall k, i <= k < i + Z.of_nat n ->
     body k = Returns (if p k then Return TRUE else FallThrough)) ->
  for_from n i body =
  Returns (if existsb p (seqZ i (Z.of_nat n)) then Return TRUE else FallThrough).
Proof.
  revert i. induction n as [|n IH]; intros i Hbody.
  - by rewrite seqZ_nil.
  - rewrite seqZ_cons by lia. cbn [for_from existsb].
    rewrite Hbody by lia. unfold seq_flow. unfold_bind.
    destruct (p i); [done|]. simpl.
    rewrite IH by (intros k Hk; apply Hbody; lia).
    by replace (Z.pred (Z.of_nat (S n))) with (Z.of_nat n) by lia.
Qed.

(** [search_block] is the scan of its rows and columns. *)
Lemma search_block_scan s (i0 i1 j0 j1 digit : Z) :
  wf s -> 0 <= i0 -> i1 < 10 -> 0 <= j0 -> j1 < 10 ->
  search_block s i0 i1 j0 j1 digit =
  Returns (if holds s (seqZ i0 (Z.of_nat (Z.to_nat (i1 + 1 - i0))))
                      (seqZ j0 (Z.of_nat (Z.to_nat (j1 + 1 - j0)))) digit
           then Return TRUE else FallThrough).
Proof.
  intros [Hp _] ????. unfold search_block, for_le, for_lt, holds.
  apply for_from_scan. intros i Hi.
  apply (for_from_scan _ _ _
           (fun c => match load (puzzle s) i c with
                     | Returns x => x =? digit
                     | _ => false
                     end)).
  intros j Hj.
  destruct (load_defined (puzzle s) i j Hp) as [x ->];
    [unfold in_bounds; lia..|].
  unfold_bind. by destruct (x =? digit).
Qed.

Lemma region_of_block (r c lo_r lo_c : Z) :
  on_board r c ->
  (region_of r c = 3 * lo_r + lo_c + 1 /\ 0 <= lo_r <= 2 /\ 0 <= lo_c <= 2 <->
   (3 * lo_r + 1 <= r <= 3 * lo_r + 3 /\ 3 * lo_c + 1 <= c <= 3 * lo_c + 3) /\
   0 <= lo_r <= 2 /\ 0 <= lo_c <= 2).
Proof.
  intros [Hr Hc]. unfold region_of.
  pose proof (Z.div_mod (r - 1) 3 ltac:(lia)).
  pose proof (Z.mod_pos_bound (r - 1) 3 ltac:(lia)).
  pose proof (Z.div_mod (c - 1) 3 ltac:(lia)).
  pose proof (Z.mod_pos_bound (c - 1) 3 ltac:(lia)).
  lia.
Qed.

(** The block that [region_search] scans for region [3 * lo_r + lo_c + 1]. *)
Lemma holds_block s (lo_r lo_c digit : Z) :
  0 <= lo_r <= 2 -> 0 <= lo_c <= 2 ->
  (holds s [3 * lo_r + 1; 3 * lo_r + 2; 3 * lo_r + 3]
           [3 * lo_c + 1; 3 * lo_c + 2; 3 * lo_c + 3] digit = true <->
   exists r c, on_board r c /\ region_of r c = 3 * lo_r + lo_c + 1 /\
               load (puzzle s) r c = Returns digit).
Proof.
  intros Hlr Hlc. rewrite holds_spec. split.
  - intros (r & c & Hr & Hc & H). exists r, c.
    assert (Hb : on_board r c) by (unfold on_board; simpl in Hr, Hc; lia).
    split; [done|]. split; [|done].
    apply (region_of_block r c lo_r lo_c Hb). simpl in Hr, Hc. lia.
  - intros (r & c & Hb & Hreg & H). exists r, c.
    destruct (proj1 (region_of_block r c lo_r lo_c Hb)) as [[Hr Hc] _];
      [lia|].
    simpl. repeat split; (done || lia).
Qed.

(** X8. On a board of the declared size and for a region number 1..9,
    [region_search] returns [TRUE] exactly when some cell of that 3x3 region
    holds the digit; when none does, it reaches its closing brace without
    returning a value. *)
Theorem region_search_finds s (region digit : Z) :
  wf s -> 1 <= region <= 9 ->
  (region_search s region digit = Returns (Return TRUE) <->
   exists r c, on_board r c /\ region_of r c = region /\
               load (puzzle s) r c = Returns digit) /\
  (region_search s region digit <> Returns (Return TRUE) ->
   region_search s region digit = Returns FallThrough).
Proof.
  intros Hwf Hreg.
  assert (Hcase : exists lo_r lo_c,
             0 <= lo_r <= 2 /\ 0 <= lo_c <= 2 /\ region = 3 * lo_r + lo_c + 1).
  { exists ((region - 1) / 3), ((region - 1) mod 3).
    pose proof (Z.div_mod (region - 1) 3 ltac:(lia)).
    pose proof (Z.mod_pos_bound (region - 1) 3 ltac:(lia)). lia. }
  destruct Hcase as (lo_r & lo_c & Hlr & Hlc & ->).
  rewrite <- (holds_block s lo_r lo_c digit Hlr Hlc).
  assert (Hrun : region_search s (3 * lo_r + lo_c + 1) digit =
                 Returns (if holds s [3 * lo_r + 1; 3 * lo_r + 2; 3 * lo_r + 3]
                                     [3 * lo_c + 1; 3 * lo_c + 2; 3 * lo_c + 3]
                                     digit
                          then Return TRUE else FallThrough)).
  { assert (Hlo : (lo_r = 0 \/ lo_r = 1 \/ lo_r = 2) /\
                  (lo_c = 0 \/ lo_c = 1 \/ lo_c = 2)) by lia.
    destruct Hlo as [[-> | [-> | ->]] [-> | [-> | ->]]];
      remember (holds s _ _ digit) as found eqn:Hfound;
      unfold region_search; simpl;
      rewrite search_block_scan by (done || lia);
      match goal with |- context [holds s ?rs ?cs digit] =>
        replace (holds s rs cs digit) with found by (subst found; reflexivity)
      end;
      unfold seq_flow, skip; unfold_bind; by destruct found. }
  rewrite Hrun. destruct (holds _ _ _ _).
  - split; [done|]. intros H. by destruct H.
  - split; [|done]. split; [intros [=] | done].
Qed.

Lemma region_search_finds_witness :
  wf board_78 /\ 1 <= 9 <= 9 /\
  region_search board_78 9 5 = Returns (Return TRUE).
Proof.
  assert (Hwf : wf board_78) by (split; reflexivity).
  assert (Hreg : 1 <= 9 <= 9) by lia.
  split; [exact Hwf|]. split; [exact Hreg|].
  apply (proj1 (region_search_finds board_78 9 5 Hwf Hreg)).
  exists 7, 8. split; [unfold on_board; lia|]. split; reflexivity.
Defined.

(** ** What editing and seeding keep *)

Lemma set_puzzle_digits_ok s s' (i j v : Z) :
  digits_ok s -> 0 <= v <= 9 -> set_puzzle s i j v = Returns s' ->
  digits_ok s'.
Proof.
  unfold digits_ok. intros Hok Hv Hset.
  destruct (set_puzzle_inv _ _ _ _ _ Hset) as [Hst _].
  rewrite to_short_small in Hst by lia.
  revert Hst. unfold store. destruct (offset i j) as [k|]; [|done].
  case_decide; [|done]. intros [= <-]. by apply Forall_insert.
Qed.

Lemma set_fixed_puzzle s s' (i j : Z) (v : bool) :
  set_fixed s i j v = Returns s' -> puzzle s' = puzzle s.
Proof.
  unfold set_fixed. unfold_bind.
  destruct (store _ _ _ _) as [f| |]; [|done..]. by intros [= <-].
Qed.

Lemma exec_keeps s s' (c : command) (r : op_result) :
  exec s c = Returns (r, s') ->
  fixed s' = fixed s /\ (digits_ok s -> digits_ok s').
Proof.
  destruct c as [row col digit|row col]; simpl; intros H.
  - destruct (add_digit_result _ _ _ _ _ _ H) as [[_ ->] | (_ & Hd & _ & Hset)];
      [done|].
    split; [by destruct (set_puzzle_inv _ _ _ _ _ Hset)|].
    intros Hok. apply (set_puzzle_digits_ok s s' row col digit); (done || lia).
  - destruct (erase_digit_result _ _ _ _ _ H) as [[_ ->] | (_ & _ & _ & Hset)];
      [done|].
    split; [by destruct (set_puzzle_inv _ _ _ _ _ Hset)|].
    intros Hok. apply (set_puzzle_digits_ok s s' row col 0); (done || lia).
Qed.

(** X9. No sequence of [add_digit] and [erase_digit] calls writes the
    [fixed] table: after any session that returns, it is what it was. *)
Theorem editing_keeps_flags s s' (cs : list command) (rs : list op_result) :
  run s cs = Returns (rs, s') -> fixed s' = fixed s.
Proof.
  revert s rs. induction cs as [|c cs IH]; intros s rs; simpl.
  - by intros [= _ <-].
  - unfold_bind. destruct (exec s c) as [[r s1]| |] eqn:Hc; [|done..].
    destruct (run s1 cs) as [[rs' s2]| |] eqn:Hrun; [|done..].
    intros [= _ <-]. rewrite (IH _ _ Hrun).
    by destruct (exec_keeps _ _ _ _ Hc).
Qed.

Lemma editing_keeps_flags_witness :
  run seeded_77 [Place 7 8 5; Erase 7 7; Erase 7 8; Place 9 8 2]
  = Returns ([OP_OK; OP_FIXED; OP_OK; OP_OK],
             mkState (<[98%nat := 2]> (puzzle seeded_77)) (fixed seeded_77)) /\
  fixed (mkState (<[98%nat := 2]> (puzzle seeded_77)) (fixed seeded_77))
  = fixed seeded_77.
Proof.
  split; [reflexivity|].
  exact (editing_keeps_flags seeded_77 _
           [Place 7 8 5; Erase 7 7; Erase 7 8; Place 9 8 2]
           [OP_OK; OP_FIXED; OP_OK; OP_OK] eq_refl).
Defined.

(** X10. Editing keeps the board well-formed: if the tables have the
    declared size, every element of [puzzle] is in 0..9 and every fixed cell
    holds a digit, then the same is true after any session of [add_digit]
    and [erase_digit] calls that returns. *)
Theorem editing_keeps_board_valid s s' (cs : list command)
    (rs : list op_result) :
  wf s -> digits_ok s -> fixed_filled s ->
  run s cs = Returns (rs, s') ->
  wf s' /\ digits_ok s' /\ fixed_filled s'.
Proof.
  intros Hwf Hok Hff Hrun.
  destruct (run_preserves s s' cs rs Hwf Hff Hrun) as [Hwf' Hff'].
  split; [done|]. split; [|done].
  clear Hwf Hff Hwf' Hff'. revert s rs Hok Hrun.
  induction cs as [|c cs IH]; intros s rs Hok; simpl.
  - by intros [= _ <-].
  - unfold_bind. destruct (exec s c) as [[r s1]| |] eqn:Hc; [|done..].
    destruct (run s1 cs) as [[rs' s2]| |] eqn:Hrun; [|done..].
    intros [= _ <-]. apply (IH s1 rs'); [|done].
    by apply (exec_keeps _ _ _ _ Hc).
Qed.

Lemma zero_state_digits_ok : digits_ok zero_state.
Proof. apply Forall_replicate. lia. Qed.

Lemma editing_keeps_board_valid_witness :
  run zero_state [Place 7 7 5; Place 7 8 5; Erase 7 7]
  = Returns ([OP_OK; OP_OK; OP_OK], board_78) /\
  wf board_78 /\ digits_ok board_78 /\ fixed_filled board_78.
Proof.
  split; [reflexivity|].
  exact (editing_keeps_board_valid zero_state board_78
           [Place 7 7 5; Place 7 8 5; Erase 7 7] [OP_OK; OP_OK; OP_OK]
           zero_state_wf zero_state_digits_ok zero_state_fixed_filled eq_refl).
Defined.

(** ** What [configure] does to the board *)

(** What an accepted line went through. *)
Lemma configure_line_result (line_in : buffer) s s' :
  configure_line line_in s = Returns s' ->
  exists row col digit s1,
    on_board row col /\ 1 <= digit <= 9 /\
    load (puzzle s) row col = Returns 0 /\
    set_puzzle s row col digit = Returns s1 /\
    set_fixed s1 row col TRUE = Returns s'.
Proof.
  intros H.
  destruct (configure_line_returns _ _ _ H)
    as (c0 & c1 & c2 & (Hr & Hc & Hd) & Hcell).
  destruct (configure_cell_returns _ _ _ _ _ Hcell) as (Hx & s1 & Hs1 & Hs').
  exists (c0 - 48), (c1 - 48), (c2 - 48), s1.
  apply in_range_spec in Hr, Hc, Hd. unfold on_board. tauto.
Qed.

Lemma grown_refl s : grown s s.
Proof. by repeat split. Qed.

Lemma grown_trans s1 s2 s3 : grown s1 s2 -> grown s2 s3 -> grown s1 s3.
Proof.
  intros (Hd1 & Hf1 & Hc1) (Hd2 & Hf2 & Hc2). repeat split.
  - intros r c x Hx Hne. apply Hd2; [by apply Hd1 | done].
  - intros r c Hf. by apply Hf2, Hf1.
  - intros r c Hne.
    destruct (decide (load (puzzle s2) r c = load (puzzle s1) r c)) as [E|E].
    + apply Hc2. by rewrite E.
    + by apply Hf2, Hc1.
Qed.

Lemma configure_line_grown (line_in : buffer) s s' :
  configure_line line_in s = Returns s' -> grown s s'.
Proof.
  intros H.
  destruct (configure_line_result _ _ _ H)
    as (row & col & d & s1 & Hb & Hd & Hx & Hset & Hfix).
  destruct (set_puzzle_inv _ _ _ _ _ Hset) as [Hst Hfx1].
  pose proof (set_fixed_puzzle _ _ _ _ _ Hfix) as Hp.
  revert Hfix. unfold set_fixed. unfold_bind.
  destruct (store (fixed s1) row col TRUE) as [f| |] eqn:Hf; [|done..].
  intros [= <-]. cbn [puzzle fixed] in *. rewrite Hfx1 in Hf.
  repeat split; cbn [puzzle fixed].
  - intros r c x Hload Hne.
    rewrite (load_store_other _ _ _ _ _ _ _ Hst); [done|].
    intros [-> ->]. congruence.
  - intros r c Hload.
    destruct (Z.eq_dec r row) as [->|Hr]; [destruct (Z.eq_dec c col) as [->|Hc]|].
    + apply (load_store_same _ _ _ _ _ Hf).
    + by rewrite (load_store_other _ _ _ _ _ _ _ Hf) by lia.
    + by rewrite (load_store_other _ _ _ _ _ _ _ Hf) by lia.
  - intros r c Hne.
    destruct (Z.eq_dec r row) as [->|Hr]; [destruct (Z.eq_dec c col) as [->|Hc]|].
    + apply (load_store_same _ _ _ _ _ Hf).
    + destruct Hne. apply (load_store_other _ _ _ _ _ _ _ Hst). lia.
    + destruct Hne. apply (load_store_other _ _ _ _ _ _ _ Hst). lia.
Qed.

Lemma configure_loop_grown (fuel : nat) (file : stream) (line_in : buffer)
    s s' :
  configure_loop fuel file line_in s = Some (Returns s') -> grown s s'.
Proof.
  revert file line_in s. induction fuel as [|fuel IH]; intros file line_in s;
    simpl.
  - destruct (fgets line_in 5 file) as [[? ?]|]; [done|].
    intros [= <-]. apply grown_refl.
  - destruct (fgets line_in 5 file) as [[line_in' rest]|];
      [|intros [= <-]; apply grown_refl].
    destruct (configure_line line_in' s) as [s1| |] eqn:Hline; [|done..].
    intros Hrest. apply (grown_trans s s1 s').
    + by apply (configure_line_grown line_in').
    + by apply (IH rest line_in').
Qed.

(** X11. Seeding never removes anything: when [configure] returns, every
    cell that held a digit before still holds that digit, and every cell
    that was fixed before is still fixed. *)
Theorem seeding_keeps_what_is_there (file : stream) s s' :
  configure file s = Some (Returns s') ->
  (forall r c x, load (puzzle s) r c = Returns x -> x <> 0 ->
     load (puzzle s') r c = Returns x) /\
  (forall r c, load (fixed s) r c = Returns TRUE ->
     load (fixed s') r c = Returns TRUE).
Proof.
  intros H. destruct (configure_loop_grown _ _ _ _ _ H) as (Hd & Hf & _).
  by split.
Qed.

(** X12. Every cell whose content [configure] changes is fixed when
    [configure] returns. *)
Theorem seeding_marks_what_it_writes (file : stream) s s' (r c : Z) :
  configure file s = Some (Returns s') ->
  load (puzzle s') r c <> load (puzzle s) r c ->
  load (fixed s') r c = Returns TRUE.
Proof.
  intros H. destruct (configure_loop_grown _ _ _ _ _ H) as (_ & _ & Hc).
  apply Hc.
Qed.

(** X13. Seeding keeps the board well-formed: if the tables have the
    declared size, every element of [puzzle] is in 0..9 and every fixed cell
    holds a digit, the same is true when [configure] returns. *)
Theorem seeding_keeps_board_valid (file : stream) s s' :
  wf s -> digits_ok s -> fixed_filled s ->
  configure file s = Some (Returns s') ->
  wf s' /\ digits_ok s' /\ fixed_filled s'.
Proof.
  intros Hwf Hok Hff H.
  destruct (configure_preserves file s s' Hwf Hff H) as [Hwf' Hff'].
  split; [done|]. split; [|done].
  clear Hwf Hff Hwf' Hff'. revert H. unfold configure.
  generalize (length file) as fuel. generalize fresh_buffer as line_in.
  intros line_in fuel. revert file line_in s Hok.
  induction fuel as [|fuel IH]; intros file line_in s Hok; simpl.
  - destruct (fgets line_in 5 file) as [[? ?]|]; [done|]. by intros [= <-].
  - destruct (fgets line_in 5 file) as [[line_in' rest]|];
      [|by intros [= <-]].
    destruct (configure_line line_in' s) as [s1| |] eqn:Hline; [|done..].
    apply IH.
    destruct (configure_line_result _ _ _ Hline)
      as (row & col & d & s0 & _ & Hd & _ & Hset & Hfix).
    unfold digits_ok. rewrite (set_fixed_puzzle _ _ _ _ _ Hfix).
    apply (set_puzzle_digits_ok s s0 row col d); (done || lia).
Qed.

Lemma seeding_keeps_what_is_there_witness :
  configure [56; 56; 51; 10] seeded_77
  = Some (Returns (mkState (<[88%nat := 3]> (puzzle seeded_77))
                           (<[88%nat := TRUE]> (fixed seeded_77)))) /\
  load (puzzle (mkState (<[88%nat := 3]> (puzzle seeded_77))
                        (<[88%nat := TRUE]> (fixed seeded_77)))) 7 7
  = Returns 5.
Proof.
  split; [reflexivity|].
  refine (proj1 (seeding_keeps_what_is_there [56; 56; 51; 10] seeded_77 _
                   eq_refl) 7 7 5 eq_refl _).
  lia.
Defined.

Lemma seeding_marks_what_it_writes_witness :
  configure file_775 zero_state = Some (Returns seeded_77) /\
  load (puzzle seeded_77) 7 7 <> load (puzzle zero_state) 7 7 /\
  load (fixed seeded_77) 7 7 = Returns TRUE.
Proof.
  assert (Hne : load (puzzle seeded_77) 7 7 <> load (puzzle zero_state) 7 7)
    by discriminate.
  split; [reflexivity|]. split; [exact Hne|].
  exact (seeding_marks_what_it_writes file_775 zero_state seeded_77 7 7
           eq_refl Hne).
Defined.

Lemma seeding_keeps_board_valid_witness :
  configure file_775 zero_state = Some (Returns seeded_77) /\
  wf seeded_77 /\ digits_ok seeded_77 /\ fixed_filled seeded_77.
Proof.
  split; [reflexivity|].
  exact (seeding_keeps_board_valid file_775 zero_state seeded_77
           zero_state_wf zero_state_digits_ok zero_state_fixed_filled eq_refl).
Defined.

(** ** Lines that [configure] takes and lines it turns away *)

(** X14. A line of three characters that is not closed by a newline makes
    [configure] end the process with [exit(1)], whatever the three
    characters are: this covers a fourth character other than the newline
    and a file that ends after the third. *)
Theorem configure_rejects_unterminated_line s (c0 c1 c2 : Z) (rest : stream) :
  c0 <> 10 -> c1 <> 10 -> c2 <> 10 -> head rest <> Some 10 ->
  configure (c0 :: c1 :: c2 :: rest) s = Some (Exits 1).
Proof.
  intros H0 H1 H2 H3. apply Z.eqb_neq in H0, H1, H2.
  unfold configure. destruct rest as [|c3 rest]; cbn [length configure_loop].
  - assert (fgets fresh_buffer 5 [c0; c1; c2]
            = Some ([Some c0; Some c1; Some c2; Some 0; None], [])) as ->
      by (unfold fgets; cbn [Nat.sub fgets_take]; by rewrite H0, H1, H2).
    by rewrite (configure_line_known _ s c0 c1 c2 0) by reflexivity.
  - assert ((c3 =? 10) = false) as Hc3 by (apply Z.eqb_neq; naive_solver).
    assert (fgets fresh_buffer 5 (c0 :: c1 :: c2 :: c3 :: rest)
            = Some ([Some c0; Some c1; Some c2; Some c3; Some 0], rest)) as ->
      by (unfold fgets; cbn [Nat.sub fgets_take]; by rewrite H0, H1, H2, Hc3).
    rewrite (configure_line_known _ s c0 c1 c2 c3) by reflexivity.
    by rewrite Hc3.
Qed.

Lemma configure_rejects_unterminated_line_witness :
  configure [55; 55; 53] zero_state = Some (Exits 1) /\
  configure [55; 55; 53; 53; 10] zero_state = Some (Exits 1).
Proof.
  split.
  - apply (configure_rejects_unterminated_line zero_state 55 55 53 []);
      discriminate.
  - apply (configure_rejects_unterminated_line zero_state 55 55 53 [53; 10]);
      discriminate.
Defined.

(** X15. A file that holds one line naming an empty cell in rows 7..9 and
    columns 7..8 and a digit in 1..9 that is neither in column 1 of the
    cell's row nor in row 1 of its column is accepted: [configure] returns,
    the cell holds the digit and is fixed, and every other digit and flag is
    what it was. *)
Theorem configure_seeds_cell s (c0 c1 c2 : Z) :
  wf s ->
  7 <= c0 - 48 <= 9 -> 7 <= c1 - 48 <= 8 -> 1 <= c2 - 48 <= 9 ->
  load (puzzle s) (c0 - 48) (c1 - 48) = Returns 0 ->
  load (puzzle s) (c0 - 48) 1 <> Returns (c2 - 48) ->
  load (puzzle s) 1 (c1 - 48) <> Returns (c2 - 48) ->
  exists s',
    configure [c0; c1; c2; 10] s = Some (Returns s') /\
    load (puzzle s') (c0 - 48) (c1 - 48) = Returns (c2 - 48) /\
    load (fixed s') (c0 - 48) (c1 - 48) = Returns TRUE /\
    (forall r c, ~ (r = c0 - 48 /\ c = c1 - 48) ->
       load (puzzle s') r c = load (puzzle s) r c /\
       load (fixed s') r c = load (fixed s) r c).
Proof.
  intros Hwf Hr Hc Hd Hx Hna Hnb.
  set (row := c0 - 48) in *. set (col := c1 - 48) in *.
  set (digit := c2 - 48) in *.
  assert (Hb : on_board row col) by (unfold on_board; lia).
  destruct (first_cells_defined s row col Hwf Hb) as (a & b & Ha & Hb1).
  destruct (store_defined (puzzle s) row col (to_short digit))
    as (k & Hk & Hst); [apply Hwf | unfold in_bounds; lia..|].
  destruct (store_defined (fixed s) row col TRUE)
    as (k' & Hk' & Hsf); [apply Hwf | unfold in_bounds; lia..|].
  exists (mkState (<[k := to_short digit]> (puzzle s))
                  (<[k' := TRUE]> (fixed s))).
  split.
  - unfold configure. cbn [length configure_loop].
    rewrite fgets_full_line by (reflexivity || lia).
    rewrite (configure_line_known _ s c0 c1 c2 10) by reflexivity.
    unfold configure_cell. unfold_bind. fold row col digit.
    rewrite (proj2 (in_range_spec row)), (proj2 (in_range_spec col)),
            (proj2 (in_range_spec digit)) by lia.
    cbn [negb orb Z.eqb Pos.eqb]. rewrite Hx. cbn [negb Z.eqb].
    rewrite (row_contains_first_cell s row digit a Ha).
    rewrite (col_contains_first_cell s col digit b Hb1).
    unfold orelse. unfold_bind.
    rewrite Ha in Hna. rewrite Hb1 in Hnb.
    destruct (Z.eqb_spec a digit) as [->|_]; [done|].
    destruct (Z.eqb_spec b digit) as [->|_]; [done|].
    rewrite (region_contains_cases s row col digit Hwf Hb).
    assert (region_contains_returns row col = true) as ->
      by (unfold region_contains_returns; lia).
    cbn [value_of]. unfold value_of. unfold_bind.
    unfold set_puzzle, set_fixed. unfold_bind. rewrite Hst.
    cbn [fixed puzzle]. rewrite Hsf. cbn [fixed puzzle].
    by unfold fgets.
  - rewrite to_short_small in * by lia. cbn [puzzle fixed].
    split; [by apply (load_store_same (puzzle s))|].
    split; [by apply (load_store_same (fixed s))|].
    intros r c Hne. split.
    + by apply (load_store_other (puzzle s) _ row col r c digit).
    + by apply (load_store_other (fixed s) _ row col r c TRUE).
Qed.

Lemma configure_seeds_cell_witness :
  exists s', configure [56; 55; 52; 10] seeded_77 = Some (Returns s') /\
             load (puzzle s') 8 7 = Returns 4 /\
             load (fixed s') 8 7 = Returns TRUE.
Proof.
  destruct (configure_seeds_cell seeded_77 56 55 52)
    as (s' & Hrun & Hp & Hf & _);
    [split; reflexivity | lia | lia | lia | reflexivity
    | discriminate | discriminate |].
  exists s'. split; [exact Hrun|]. split; [exact Hp | exact Hf].
Defined.

(** ** The printed board *)

Lemma print_int_digit (x : Z) :
  1 <= x <= 9 ->
  print_int x = String (ascii_of_nat (Z.to_nat (48 + x))) EmptyString.
Proof.
  intros H.
  assert (x = 1 \/ x = 2 \/ x = 3 \/ x = 4 \/ x = 5 \/ x = 6 \/ x = 7 \/
          x = 8 \/ x = 9) as Hx by lia.
  repeat (destruct Hx as [-> | Hx]; [by vm_compute|]). subst x. by vm_compute.
Qed.

Lemma cell_defined s (row i : Z) :
  wf s -> digits_ok s -> 0 <= row <= 9 -> 0 <= i <= 9 ->
  exists x, load (puzzle s) row i = Returns x /\ 0 <= x <= 9.
Proof.
  intros [Hp _] Hok Hr Hi.
  destruct (load_defined (puzzle s) row i Hp) as [x Hx];
    [unfold in_bounds; lia..|].
  exists x. split; [done|]. revert Hx. unfold load.
  destruct (offset row i) as [k|]; [|done].
  destruct (puzzle s !! k) as [y|] eqn:E; [|done]. intros [= <-].
  apply (Forall_lookup_1 _ _ _ _ Hok E).
Qed.

(** One cell of a printed row. *)
Lemma print_cell_shown s (row i : Z) (out : string) :
  wf s -> digits_ok s -> 0 <= row <= 9 -> 0 <= i <= 9 ->
  print_cell s row i out =
  Returns (if Z.rem i 3 =? 0
           then ((out +:+ " ") +:+ String (shown s row i) EmptyString) +:+ " |"
           else (out +:+ " ") +:+ String (shown s row i) EmptyString).
Proof.
  intros Hwf Hok Hr Hi.
  destruct (cell_defined s row i Hwf Hok Hr Hi) as (x & Hx & Hrange).
  unfold print_cell, shown, cell_char. unfold_bind. rewrite Hx.
  destruct (Z.eqb_spec x 0) as [->|Hne].
  - by destruct (Z.rem i 3 =? 0).
  - rewrite print_int_digit by lia.
    by destruct (Z.rem i 3 =? 0).
Qed.

Lemma print_row_text s (row : Z) :
  wf s -> digits_ok s -> 0 <= row <= 9 ->
  print_row s row = Returns (row_text (shown s row)).
Proof.
  intros Hwf Hok Hr. unfold print_row, loop_lt.
  change (Z.to_nat (10 - 1)) with 9%nat. cbn [loop_from]. unfold_bind.
  repeat (rewrite print_cell_shown by (done || lia); cbv beta iota).
  reflexivity.
Qed.

(** X16. On a board of the declared size whose cells hold 0..9,
    [print_row] writes a bar, then the nine cells of the row in groups of
    three, each cell after a blank and shown as its digit or, when empty, as
    a blank, each group closed by a blank and a bar, then a newline. *)
Theorem print_row_layout s (row : Z) :
  wf s -> digits_ok s -> 0 <= row <= 9 ->
  print_row s row = Returns (row_text (shown s row)).
Proof. apply print_row_text. Qed.

Lemma print_row_layout_witness :
  print_row board_77_78 7 = Returns (row_text (shown board_77_78 7)) /\
  row_text (shown board_77_78 7)
  = "|       |       | 5 5   |" +:+ newline.
Proof.
  split; [|reflexivity].
  apply (print_row_layout board_77_78 7); [split; reflexivity | | lia].
  unfold digits_ok, board_77_78. cbn [puzzle].
  repeat apply Forall_insert; try lia. apply Forall_replicate. lia.
Defined.

(** X17. On such a board every printed row has the width of the line of
    dashes: 25 characters and the newline. *)
Theorem print_row_lines_up s (row : Z) :
  wf s -> digits_ok s -> 0 <= row <= 9 ->
  exists text,
    print_row s row = Returns text /\
    String.length text = String.length print_dashes /\
    String.length text = 26%nat.
Proof.
  intros Hwf Hok Hr. exists (row_text (shown s row)).
  split; [by apply print_row_text|]. by split.
Qed.

Lemma string_app_assoc (a b c : string) :
  (a +:+ b) +:+ c = a +:+ (b +:+ c).
Proof.
  induction a as [|x a IH]; [done|].
  change (String x ((a +:+ b) +:+ c) = String x (a +:+ (b +:+ c))).
  by rewrite IH.
Qed.

Lemma board_77_78_digits_ok : digits_ok board_77_78.
Proof.
  unfold digits_ok, board_77_78. cbn [puzzle].
  repeat apply Forall_insert; try lia. apply Forall_replicate. lia.
Qed.

Lemma print_row_lines_up_witness :
  exists text, print_row board_77_78 7 = Returns text /\
               String.length text = 26%nat.
Proof.
  destruct (print_row_lines_up board_77_78 7
              ltac:(split; reflexivity) board_77_78_digits_ok ltac:(lia))
    as (text & Hrun & _ & Hlen).
  exists text. split; [exact Hrun | exact Hlen].
Defined.

(** X18. On such a board [print_puzzle] writes thirteen lines: a line of
    dashes, then the rows 1 to 9 as [print_row] writes them, with a line of
    dashes after rows 3, 6 and 9. *)
Theorem print_puzzle_layout s :
  wf s -> digits_ok s ->
  print_puzzle s =
  Returns (print_dashes +:+
           row_text (shown s 1) +:+ row_text (shown s 2) +:+
           row_text (shown s 3) +:+ print_dashes +:+
           row_text (shown s 4) +:+ row_text (shown s 5) +:+
           row_text (shown s 6) +:+ print_dashes +:+
           row_text (shown s 7) +:+ row_text (shown s 8) +:+
           row_text (shown s 9) +:+ print_dashes).
Proof.
  intros Hwf Hok. unfold print_puzzle, loop_lt.
  change (Z.to_nat (10 - 1)) with 9%nat. cbn [loop_from]. unfold_bind.
  repeat (rewrite print_row_text by (done || lia); cbv beta iota).
  change (Z.rem 1 3 =? 0) with false.
  change (Z.rem (1 + 1) 3 =? 0) with false.
  change (Z.rem (1 + 1 + 1) 3 =? 0) with true.
  change (Z.rem (1 + 1 + 1 + 1) 3 =? 0) with false.
  change (Z.rem (1 + 1 + 1 + 1 + 1) 3 =? 0) with false.
  change (Z.rem (1 + 1 + 1 + 1 + 1 + 1) 3 =? 0) with true.
  change (Z.rem (1 + 1 + 1 + 1 + 1 + 1 + 1) 3 =? 0) with false.
  change (Z.rem (1 + 1 + 1 + 1 + 1 + 1 + 1 + 1) 3 =? 0) with false.
  change (Z.rem (1 + 1 + 1 + 1 + 1 + 1 + 1 + 1 + 1) 3 =? 0) with true.
  cbv beta iota.
  change (shown s (1 + 1)) with (shown s 2).
  change (shown s (1 + 1 + 1)) with (shown s 3).
  change (shown s (1 + 1 + 1 + 1)) with (shown s 4).
  change (shown s (1 + 1 + 1 + 1 + 1)) with (shown s 5).
  change (shown s (1 + 1 + 1 + 1 + 1 + 1)) with (shown s 6).
  change (shown s (1 + 1 + 1 + 1 + 1 + 1 + 1)) with (shown s 7).
  change (shown s (1 + 1 + 1 + 1 + 1 + 1 + 1 + 1)) with (shown s 8).
  change (shown s (1 + 1 + 1 + 1 + 1 + 1 + 1 + 1 + 1)) with (shown s 9).
  by rewrite !string_app_assoc.
Qed.

Lemma print_puzzle_layout_witness :
  exists text, print_puzzle board_77_78 = Returns text /\
               String.length text = 338%nat.
Proof.
  eexists. split.
  - exact (print_puzzle_layout board_77_78
             ltac:(split; reflexivity) board_77_78_digits_ok).
  - reflexivity.
Defined.

(** ** [read_line] *)

(** The loop of [read_line], started with [n] characters already stored. *)
Lemma read_line_loop_spec (echo_input : bool) (to_char : Z -> Z) (max : Z)
    (input : stream) (n : nat) (buf : buffer) (echo : list Z) :
  Z.of_nat n <= max -> (Z.to_nat max < length buf)%nat ->
  read_line_loop echo_input to_char max input (Z.of_nat n) buf echo =
  let line := first_line input in
  let m := (length line `min` (Z.to_nat max - n))%nat in
  Returns (if decide (length line < length input)%nat then Some 10 else None,
           Z.of_nat (n + m),
           mkLineIO
             (take n buf ++ (Some ∘ to_char <$> take m line)
                ++ drop (n + m) buf)
             (drop (S (length line)) input)
             (if echo_input then echo ++ line else echo)).
Proof.
  unfold buffer in *.
  revert n buf echo. induction input as [|ch rest IH]; intros n buf echo Hn Hlen.
  - cbn. rewrite Nat.add_0_r, take_drop, app_nil_r. by destruct echo_input.
  - cbn [read_line_loop first_line]. destruct (Z.eqb_spec ch 10) as [->|Hch].
    + clear IH. cbn. rewrite Nat.add_0_r, take_drop, app_nil_r.
      case_decide; [|lia]. by destruct echo_input.
    + destruct (Z.ltb_spec (Z.of_nat n) max) as [Hlt|Hge].
      * unfold store_char.
        assert (H1 : (0 <=? Z.of_nat n) = true) by (apply Z.leb_le; lia).
        assert (H2 : (Z.of_nat n <? Z.of_nat (length buf)) = true)
          by (apply Z.ltb_lt; lia).
        rewrite H1, H2.
        cbn [andb]. unfold_bind. rewrite Nat2Z.id.
        replace (Z.of_nat n + 1) with (Z.of_nat (S n)) by lia.
        assert (Hn' : Z.of_nat (S n) <= max) by lia.
        assert (Hlen' : (Z.to_nat max
                         < length (<[n:=Some (to_char ch)]> buf))%nat)
          by (rewrite length_insert; lia).
        rewrite (IH (S n) _ _ Hn' Hlen').
        clear IH. cbv zeta. cbn [length].
        replace (length (first_line rest) `min` (Z.to_nat max - S n))%nat
          with (Nat.pred (S (length (first_line rest))
                          `min` (Z.to_nat max - n)))%nat by lia.
        destruct (S (length (first_line rest)) `min` (Z.to_nat max - n))%nat
          as [|m] eqn:Hm; [lia|]. cbn [Nat.pred].
        f_equal. f_equal; [f_equal|].
        -- repeat case_decide; (done || lia).
        -- f_equal. lia.
        -- f_equal.
           ++ rewrite (take_S_r _ _ (Some (to_char ch)))
                by (apply list_lookup_insert_eq; lia).
              rewrite take_insert_ge by lia.
              rewrite drop_insert_lt by lia.
              rewrite <- app_assoc. cbn [take fmap list_fmap app].
              by replace (n + S m)%nat with (S n + m)%nat by lia.
           ++ destruct echo_input; [|done]. by rewrite <- app_assoc.
      * rewrite (IH n buf _ Hn Hlen). clear IH. cbv zeta. cbn [length].
        replace (Z.to_nat max - n)%nat with 0%nat by lia.
        rewrite !Nat.min_0_r.
        f_equal. f_equal; [f_equal|].
        -- repeat case_decide; (done || lia).
        -- f_equal. destruct echo_input; [|done]. by rewrite <- app_assoc.
Qed.

(** X19. When the array has room for [max] characters and a terminator,
    [read_line] consumes the input up to and including the first newline (or
    up to its end), stores the first [max] characters of that line followed
    by 0 at the front of the array, leaves the rest of the array as it was,
    echoes the line (and its newline) when [echo_input] says so, and reaches
    its closing brace without returning a value. *)
Theorem read_line_fills_buffer (echo_input : bool) (to_char : Z -> Z)
    (input : stream) (buf : buffer) (max : Z) :
  0 <= max -> (Z.to_nat max < length buf)%nat ->
  read_line echo_input to_char input buf max =
  let line := first_line input in
  let stored := take (Z.to_nat max) line in
  Returns (FallThrough,
           mkLineIO
             ((Some ∘ to_char <$> stored) ++ Some 0
                :: drop (S (length stored)) buf)
             (drop (S (length line)) input)
             (if echo_input
              then line ++ (if decide (length line < length input)%nat
                            then [10] else [])
              else [])).
Proof.
  intros Hmax Hlen. unfold read_line. unfold buffer in *.
  pose proof (read_line_loop_spec echo_input to_char max input 0 buf []
                ltac:(lia) Hlen) as Hloop.
  change (Z.of_nat 0) with 0 in Hloop. rewrite Hloop. clear Hloop.
  cbv zeta. unfold_bind. cbn [line_buf line_rest line_echo take app Nat.add].
  rewrite Nat.sub_0_r.
  set (line := first_line input).
  set (m := (length line `min` Z.to_nat max)%nat).
  assert (Hm : (m < length buf)%nat) by lia.
  assert (Htake : take m line = take (Z.to_nat max) line).
  { unfold m. destruct (Nat.min_spec (length line) (Z.to_nat max))
      as [[Hlt ->] | [Hge ->]]; [|done].
    by rewrite !take_ge by lia. }
  assert (Hstored : length (take (Z.to_nat max) line) = m)
    by (rewrite length_take; lia).
  rewrite Hstored, <- Htake. rewrite take_0, app_nil_l.
  unfold store_char. rewrite length_app, length_fmap, length_take, length_drop.
  destruct (lookup_lt_is_Some_2 buf m Hm) as [y Hy].
  assert (H1 : (0 <=? Z.of_nat m) = true) by (apply Z.leb_le; lia).
  assert (H2 : (Z.of_nat m
                <? Z.of_nat (m `min` length line + (length buf - m)))
               = true) by (apply Z.ltb_lt; lia).
  rewrite H1, H2. cbn [andb]. rewrite Nat2Z.id. unfold buffer.
  rewrite insert_app_r_alt by (rewrite length_fmap, length_take; lia).
  rewrite length_fmap, length_take.
  replace (m - m `min` length line)%nat with 0%nat by lia.
  rewrite (drop_S buf y m Hy). cbn [insert list_insert].
  f_equal. f_equal. f_equal.
  destruct echo_input; [|done]. cbn [andb].
  destruct (decide (length line < length input)%nat).
  - by rewrite bool_decide_eq_true_2.
  - rewrite bool_decide_eq_false_2 by done. by rewrite app_nil_r.
Qed.

Lemma read_line_fills_buffer_witness :
  read_line true (fun c => c)
    [97; 32; 55; 32; 55; 32; 53; 32; 33; 10; 113; 10] (replicate 9 None) 8
  = Returns (FallThrough,
             mkLineIO
               [Some 97; Some 32; Some 55; Some 32; Some 55; Some 32;
                Some 53; Some 32; Some 0]
               [113; 10]
               [97; 32; 55; 32; 55; 32; 53; 32; 33; 10]).
Proof.
  apply (read_line_fills_buffer true (fun c => c)
           [97; 32; 55; 32; 55; 32; 53; 32; 33; 10; 113; 10]
           (replicate 9 None) 8); [lia | simpl; lia].
Defined.

(** ** How the operations compose *)

(** X21. Erasing a digit and placing the same digit back in the cell, when
    both calls return [OP_OK], gives back the tables as they were. *)
Theorem erase_then_add s s1 s2 (row col x : Z) :
  load (puzzle s) row col = Returns x ->
  erase_digit s row col = Returns (OP_OK, s1) ->
  add_digit s1 row col x = Returns (OP_OK, s2) ->
  s2 = s.
Proof.
  intros Hx Herase Hadd.
  destruct (erase_digit_result _ _ _ _ _ Herase)
    as [[[H|[H|H]] _] | (_ & _ & _ & Hset1)]; try discriminate H.
  destruct (add_digit_ok_inv _ _ _ _ _ Hadd) as ((_ & _ & Hd) & _ & Hset2).
  apply in_range_spec in Hd.
  destruct (set_puzzle_inv _ _ _ _ _ Hset1) as [Hst1 Hfx1].
  destruct (set_puzzle_inv _ _ _ _ _ Hset2) as [Hst2 Hfx2].
  rewrite to_short_small in Hst2 by lia.
  pose proof (store_store_back _ _ _ _ _ _ _ Hx Hst1 Hst2) as Hp.
  destruct s, s2. cbn [puzzle fixed] in *. congruence.
Qed.

Lemma erase_then_add_witness :
  erase_digit board_78 7 8 = Returns (OP_OK, zero_state) /\
  add_digit zero_state 7 8 5 = Returns (OP_OK, board_78) /\
  board_78 = board_78.
Proof.
  split; [reflexivity|]. split; [reflexivity|].
  exact (erase_then_add board_78 zero_state board_78 7 8 5
           eq_refl eq_refl eq_refl).
Defined.

(** X22. A cell that [add_digit] has just filled is occupied: whatever the
    tests of [region_contains] find in the two calls, a second [add_digit]
    on the cell with any digit in 1..9 answers [OP_OCCUPIED] and leaves the
    tables alone. *)
Theorem add_twice_is_occupied (junk junk' : found) s s1
    (row col digit digit' : Z) :
  add_digit_seeing junk s row col digit = Returns (OP_OK, s1) ->
  1 <= digit' <= 9 ->
  add_digit_seeing junk' s1 row col digit' = Returns (OP_OCCUPIED, s1).
Proof.
  intros Hadd Hd'.
  destruct (add_digit_seeing_ok_inv _ _ _ _ _ _ Hadd)
    as ((Hr & Hc & Hd) & _ & Hset).
  destruct (set_puzzle_inv _ _ _ _ _ Hset) as [Hst _].
  pose proof Hd as Hd0. apply in_range_spec in Hd0.
  rewrite to_short_small in Hst by lia.
  apply (add_digit_seeing_occupied junk' s1 row col digit' digit);
    [done | done | by apply in_range_spec | | lia].
  by apply load_store_same with (arr := puzzle s).
Qed.

Lemma add_twice_is_occupied_witness :
  exists s1,
    add_digit_seeing reads_false zero_state 1 1 5 = Returns (OP_OK, s1) /\
    add_digit_seeing reads_true s1 1 1 6 = Returns (OP_OCCUPIED, s1).
Proof.
  eexists. split; [reflexivity|].
  apply (add_twice_is_occupied reads_false reads_true zero_state _ 1 1 5 6
           eq_refl).
  lia.
Defined.

(** X23. A cell that [erase_digit] has just cleared is empty: a second
    [erase_digit] on it answers [OP_EMPTY] and leaves the tables alone. *)
Theorem erase_twice_is_empty s s1 (row col : Z) :
  erase_digit s row col = Returns (OP_OK, s1) ->
  erase_digit s1 row col = Returns (OP_EMPTY, s1).
Proof.
  intros Herase. pose proof Herase as Hrange. revert Hrange.
  unfold erase_digit at 1.
  destruct (in_range row) eqn:Hr, (in_range col) eqn:Hc; simpl; try done.
  intros _.
  destruct (erase_digit_result _ _ _ _ _ Herase)
    as [[[H|[H|H]] _] | (_ & _ & _ & Hset)]; try discriminate H.
  destruct (set_puzzle_inv _ _ _ _ _ Hset) as [Hst _].
  change (to_short 0) with 0 in Hst.
  unfold erase_digit. rewrite Hr, Hc. simpl. unfold_bind.
  by rewrite (load_store_same _ _ _ _ _ Hst).
Qed.

Lemma erase_twice_is_empty_witness :
  erase_digit board_77 7 7 = Returns (OP_OK, zero_state) /\
  erase_digit zero_state 7 7 = Returns (OP_EMPTY, zero_state).
Proof.
  split; [reflexivity|].
  exact (erase_twice_is_empty board_77 zero_state 7 7 eq_refl).
Defined.

(** ** What a successful [add_digit] writes *)

(** X24. Whatever the test of [region_contains] finds where the function
    lacks a [return]: whenever [add_digit] succeeds, the arguments were in
    1..9 and the cell was empty; afterwards the cell holds the digit and is
    not fixed, the [fixed] table is untouched, and every other cell of
    [puzzle] is what it was.  The board is one on which every fixed cell
    holds a digit, as on every board that seeding and editing produce
    ([configure_preserves], [run_preserves]). *)
Theorem add_digit_single_write (junk : found) s s' (row col digit : Z) :
  wf s -> fixed_filled s ->
  add_digit_seeing junk s row col digit = Returns (OP_OK, s') ->
  (on_board row col /\ 1 <= digit <= 9 /\ load (puzzle s) row col = Returns 0) /\
  load (puzzle s') row col = Returns digit /\
  load (fixed s') row col = Returns FALSE /\
  fixed s' = fixed s /\
  (forall r c, ~ (r = row /\ c = col) ->
     load (puzzle s') r c = load (puzzle s) r c) /\
  wf s'.
Proof.
  intros Hwf Hff Hadd.
  destruct (add_digit_seeing_ok_inv _ _ _ _ _ _ Hadd)
    as ((Hr & Hc & Hd) & Hempty & Hset).
  destruct (set_puzzle_inv _ _ _ _ _ Hset) as [Hst Hfx].
  pose proof Hr as Hr'. pose proof Hc as Hc'. pose proof Hd as Hd'.
  apply in_range_spec in Hr', Hc', Hd'.
  rewrite to_short_small in Hst by lia.
  repeat split; try lia; try done.
  - by apply load_store_same with (arr := puzzle s).
  - rewrite Hfx.
    destruct (load_defined (fixed s) row col) as [b Hb];
      [apply Hwf | by apply in_range_in_bounds..|].
    destruct b; [|done].
    by destruct (Hff row col (conj Hr' Hc') Hb).
  - intros r c Hne. by apply load_store_other with (i := row) (j := col) (v := digit).
  - rewrite (store_length _ _ _ _ _ Hst). apply Hwf.
  - rewrite Hfx. apply Hwf.
Qed.

Lemma add_digit_single_write_witness :
  exists s', add_digit_seeing reads_false zero_state 1 1 5
             = Returns (OP_OK, s') /\
             load (puzzle s') 1 1 = Returns 5 /\
             load (fixed s') 1 1 = Returns FALSE /\
             load (puzzle s') 1 2 = Returns 0.
Proof.
  eexists. split; [reflexivity|].
  destruct (add_digit_single_write reads_false zero_state _ 1 1 5
              zero_state_wf zero_state_fixed_filled eq_refl)
    as (_ & Hcell & Hflag & _ & Hothers & _).
  split; [exact Hcell|]. split; [exact Hflag|].
  rewrite Hothers by lia. reflexivity.
Defined.
